(** * Word-processing operations over an unpacked OOXML document

    A shallow embedding of [scripts/word_ops.py] and [scripts/word_cli.py]:
    the DOM the scripts walk (Python's [xml.dom.minidom]), the JSON result
    objects they build, the five [word_ops] operations and the two
    [word_cli] operations, and the two [main] entry points with their exit
    codes.  The [Document] registry, the archive codec and the schema
    validator are imported by the scripts and reached here through the
    interface [Collaborators]. *)

From Stdlib Require Import ZArith Lia Ascii String.
From stdpp Require Import base option list strings gmap pretty sorting.

Local Open Scope string_scope.
Local Open Scope Z_scope.
Local Open Scope list_scope.

(** ** The DOM *)

(** A node of a parsed part.  [Element] carries the qualified tag name, the
    attributes in insertion order (minidom keeps them in a dict keyed by the
    qualified name) and the ordered children; [Text] stands for every
    character-data node, whose [nodeValue] is its data. *)
#[warnings="-register-all"]
Inductive node : Type :=
| Element (tagName : string) (attributes : list (string * string)) (childNodes : list node)
| Text (data : string).

(** A parsed part: the document node has exactly one element child, the
    [documentElement]. *)
Record document : Type := Document_node {
  rootTag : string;
  rootAttributes : list (string * string);
  rootChildren : list node
}.

Definition documentElement (d : document) : node :=
  Element (rootTag d) (rootAttributes d) (rootChildren d).

(** A node reference: the child positions leading from the document node
    down to the node.  [[0]] is the document element. *)
Definition handle : Type := list nat.

Definition tag_matches (name : string) (n : node) : bool :=
  match n with
  | Element t _ _ => bool_decide (name = "*") || bool_decide (t = name)
  | Text _ => false
  end.

(** [_get_elements_by_tagName_helper(parent, name, rc)]: every child that is
    an element with the wanted tag is appended, then its own descendants,
    then the next child.  The parent itself is never reported.  Each node
    comes with its handle relative to [parent]. *)
Fixpoint get_elements_by_tagName_helper (name : string) (parent : node)
  : list (handle * node) :=
  match parent with
  | Element _ _ cs =>
      (fix children (i : nat) (cs : list node) : list (handle * node) :=
         match cs with
         | [] => []
         | c :: rest =>
             (if tag_matches name c then [([i], c)] else [])
             ++ (prod_map (cons i) id <$> get_elements_by_tagName_helper name c)
             ++ children (S i) rest
         end) 0%nat cs
  | Text _ => []
  end.

(** The same walk over a list of siblings whose first member sits at
    position [i]. *)
Fixpoint elements_from (name : string) (i : nat) (cs : list node)
  : list (handle * node) :=
  match cs with
  | [] => []
  | c :: rest =>
      (if tag_matches name c then [([i], c)] else [])
      ++ (prod_map (cons i) id <$> get_elements_by_tagName_helper name c)
      ++ elements_from name (S i) rest
  end.

(** [Element.getElementsByTagName(name)]. *)
Definition getElementsByTagName (name : string) (n : node) : list node :=
  snd <$> get_elements_by_tagName_helper name n.

(** [Document.getElementsByTagName(name)]: the document node is the parent,
    so the document element itself is a candidate. *)
Definition Document_getElementsByTagName (name : string) (d : document)
  : list (handle * node) :=
  elements_from name 0 [documentElement d].

(** [node.firstChild] and [node.nodeValue] ([None] for an element). *)
Definition firstChild (n : node) : option node :=
  match n with
  | Element _ _ (c :: _) => Some c
  | _ => None
  end.

Definition nodeValue (n : node) : option string :=
  match n with
  | Element _ _ _ => None
  | Text s => Some s
  end.

(** The node a handle refers to, below a list of siblings. *)
Fixpoint resolve_in (cs : list node) (h : handle) : option node :=
  match h with
  | [] => None
  | i :: h' =>
      match cs !! i with
      | None => None
      | Some c =>
          match h' with
          | [] => Some c
          | _ => match c with
                 | Element _ _ kids => resolve_in kids h'
                 | Text _ => None
                 end
          end
      end
  end.

Definition resolve (d : document) (h : handle) : option node :=
  resolve_in [documentElement d] h.

(** [element.hasAttribute(name)], [getAttribute] and [setAttribute]: the
    attribute dict is keyed by the qualified name; setting an existing name
    overwrites its value in place, a new name is added at the end. *)
Fixpoint getAttribute (attrs : list (string * string)) (name : string) : option string :=
  match attrs with
  | [] => None
  | (k, v) :: rest => if String.eqb k name then Some v else getAttribute rest name
  end.

Definition hasAttribute (attrs : list (string * string)) (name : string) : bool :=
  match getAttribute attrs name with
  | Some _ => true
  | None => false
  end.

Fixpoint setAttribute (attrs : list (string * string)) (name value : string)
  : list (string * string) :=
  match attrs with
  | [] => [(name, value)]
  | (k, v) :: rest =>
      if String.eqb k name then (k, value) :: rest
      else (k, v) :: setAttribute rest name value
  end.

(** How many attributes of a list carry the given name. *)
Definition attribute_count (attrs : list (string * string)) (name : string) : nat :=
  length (filter (λ kv, kv.1 = name) attrs).

(** ** Strings

    A Python [str] is a sequence of Unicode code points.  A [string] holds
    its UTF-8 encoding, one byte per character, so that concatenation and
    equality are those of the text; what depends on the code points
    ([str.strip]) goes through [code_points] and [encode]. *)

Definition byte (c : ascii) : Z := Z.of_N (Ascii.N_of_ascii c).
Definition chr (b : Z) : ascii := Ascii.ascii_of_N (Z.to_N b).

(** The low six bits of a continuation byte. *)
Definition low6 (c : ascii) : Z := byte c mod 64.

(** The code points of UTF-8 text: the first byte of a character tells how
    many bytes it has.  (A string that is no UTF-8 stands for no text.) *)
Fixpoint code_points (s : string) : list Z :=
  match s with
  | EmptyString => []
  | String a r =>
      let b := byte a in
      if b <? 0x80 then b :: code_points r
      else
        match r with
        | EmptyString => [b]
        | String a1 r1 =>
            if b <? 0xE0 then (b mod 32 * 64 + low6 a1) :: code_points r1
            else
              match r1 with
              | EmptyString => [b]
              | String a2 r2 =>
                  if b <? 0xF0
                  then (b mod 16 * 4096 + low6 a1 * 64 + low6 a2) :: code_points r2
                  else
                    match r2 with
                    | EmptyString => [b]
                    | String a3 r3 =>
                        (b mod 8 * 262144 + low6 a1 * 4096 + low6 a2 * 64 + low6 a3)
                        :: code_points r3
                    end
              end
        end
  end.

(** The UTF-8 encoding of one code point. *)
Definition utf8 (c : Z) : string :=
  if c <? 0x80 then String (chr c) ""
  else if c <? 0x800 then String (chr (0xC0 + c / 64)) (String (chr (0x80 + c mod 64)) "")
  else if c <? 0x10000 then
    String (chr (0xE0 + c / 4096))
      (String (chr (0x80 + c / 64 mod 64)) (String (chr (0x80 + c mod 64)) ""))
  else
    String (chr (0xF0 + c / 262144))
      (String (chr (0x80 + c / 4096 mod 64))
         (String (chr (0x80 + c / 64 mod 64)) (String (chr (0x80 + c mod 64)) ""))).

Definition encode (cs : list Z) : string := foldr (λ c s, utf8 c +:+ s) "" cs.

(** The code points [str.strip] removes ([Py_UNICODE_ISSPACE]): those for
    which [str.isspace] holds. *)
Definition isspace (c : Z) : bool :=
  (9 <=? c) && (c <=? 13) || (28 <=? c) && (c <=? 32) || (c =? 0x85) || (c =? 0xA0)
  || (c =? 0x1680) || (0x2000 <=? c) && (c <=? 0x200A) || (c =? 0x2028)
  || (c =? 0x2029) || (c =? 0x202F) || (c =? 0x205F) || (c =? 0x3000).

Fixpoint lstrip (cs : list Z) : list Z :=
  match cs with
  | [] => []
  | c :: rest => if isspace c then lstrip rest else cs
  end.

Definition rstrip (cs : list Z) : list Z := rev (lstrip (rev cs)).

(** [s.strip()]. *)
Definition strip (s : string) : string := encode (rstrip (lstrip (code_points s))).

(** A code point that UTF-8 can hold. *)
Definition scalar (c : Z) : Prop := 0 ≤ c < 0xD800 ∨ 0xE000 ≤ c < 0x110000.

(** ["".join(parts)]. *)
Definition join (parts : list string) : string := foldr String.app "" parts.

(** [", ".join(parts)]. *)
Fixpoint join_with (sep : string) (parts : list string) : string :=
  match parts with
  | [] => ""
  | [p] => p
  | p :: rest => p +:+ sep +:+ join_with sep rest
  end.

(** A Python string is falsy exactly when it is empty. *)
Definition str_truthy (s : string) : bool := negb (bool_decide (s = "")).

(** [f"{n:04X}"] for a non-negative [n]: upper-case hexadecimal, padded with
    zeros on the left to four characters. *)
Definition hex_digit (d : Z) : ascii :=
  if d <? 10 then Ascii.ascii_of_N (Z.to_N (48 + d))
  else Ascii.ascii_of_N (Z.to_N (55 + d)).

Fixpoint upper_hex_go (fuel : nat) (n : Z) (acc : string) : string :=
  match fuel with
  | O => acc
  | S fuel' =>
      let acc' := String (hex_digit (n `mod` 16)) acc in
      if n `div` 16 =? 0 then acc' else upper_hex_go fuel' (n `div` 16) acc'
  end.

Definition upper_hex (n : Z) : string :=
  upper_hex_go (S (Z.to_nat (Z.log2 n))) n "".

Fixpoint zeros (k : nat) : string :=
  match k with
  | O => ""
  | S k' => String "0" (zeros k')
  end.

Definition format_04X (n : Z) : string :=
  let s := upper_hex n in
  zeros (4 - String.length s) +:+ s.

(** ** JSON results *)

#[warnings="-register-all"]
Inductive json : Type :=
| JBool (b : bool)
| JInt (z : Z)
| JStr (s : string)
| JList (items : list json)
| JDict (fields : list (string * json)).

(** A result object: the fields of a Python dict in insertion order. *)
Definition result : Type := list (string * json).

Fixpoint dict_get (r : result) (key : string) : option json :=
  match r with
  | [] => None
  | (k, v) :: rest => if String.eqb k key then Some v else dict_get rest key
  end.

(** Python truth of a JSON value. *)
Definition truthy (v : json) : bool :=
  match v with
  | JBool b => b
  | JInt z => negb (z =? 0)
  | JStr s => str_truthy s
  | JList [] | JDict [] => false
  | JList _ | JDict _ => true
  end.

(** ** Exceptions *)

(** The failures of the collaborators, after the error taxonomy, and the
    [TypeError] that ["".join] raises on a [None] item. *)
Inductive error_kind : Type :=
| ArchiveCorrupt | MissingContentTypes | PartNotFound | MalformedXml
| InvalidRange | LocationNotFound | IoFailure | TypeError.

(** A raised exception; [message] is what [str(e)] gives. *)
Record error : Type := Error { kind : error_kind; message : string }.

(** What a call does: return a value or raise. *)
Inductive outcome (A : Type) : Type :=
| Returns (a : A)
| Raises (e : error).
Arguments Returns {A} a.
Arguments Raises {A} e.

(** The object the schema validator returns; [warnings] is [None] when the
    object has no such attribute ([hasattr(result, 'warnings')]). *)
Record validation_result : Type := ValidationResult {
  valid : bool;
  errors : list string;
  warnings : option (list string)
}.

(** ** The collaborators

    What the scripts import: the archive codec ([ooxml.scripts.unpack],
    [ooxml.scripts.pack]), the [Document] registry with its editors, and
    [DOCXSchemaValidator].  An [archive] is the content of a .docx file, a
    [directory] the content of an unpacked tree, a [registry] the state of a
    [Document] object together with the editors it has handed out (the
    editors and their DOMs are shared with the registry, so every mutation
    goes through the registry). *)
Class Collaborators : Type := {
  archive : Type;
  directory : Type;
  registry : Type;
  (** [unpack_document(docx_path, dest)], given the file found at
      [docx_path], if any: the tree written below [dest]. *)
  unpack_document : option archive → outcome directory;
  (** [Document(dir, author=.., initials=..)]; [None] for an argument the
      caller leaves to its default. *)
  Document : directory → option string → option string → outcome registry;
  (** [doc[path]] and [doc.get(path)]: the editor of a part, parsed on first
      access, with its [dom]. *)
  Document_get : registry → string → outcome (registry * document);
  (** [editor.get_node(tag=.., line_number=..)]. *)
  get_node : registry → string → string → Z → outcome (option handle);
  (** An in-place mutation of an editor's [dom], seen by the registry. *)
  store_dom : registry → string → document → registry;
  (** [doc.add_comment(start=.., end=.., text=..)]. *)
  Document_add_comment : registry → handle → handle → string → outcome registry;
  (** [editor.suggest_insertion(node, text)], [editor.suggest_deletion(node)]. *)
  editor_suggest_insertion : registry → string → handle → string → outcome registry;
  editor_suggest_deletion : registry → string → handle → outcome registry;
  (** [doc.save()]: the unpacked tree after the dirty parts are written. *)
  Document_save : registry → outcome directory;
  (** [pack_document(dir, docx_path)]: the archive written at [docx_path]. *)
  pack_document : directory → outcome archive;
  (** [DOCXSchemaValidator(dir).validate()]. *)
  DOCXSchemaValidator_validate : directory → outcome validation_result;
  (** [(Path(dir) / file).exists()]. *)
  path_exists : directory → string → bool
}.

(** The calls an operation makes to its collaborators, in order. *)
Inductive call : Type :=
| CallUnpack (docx_path : string)
| CallDocument (author initials : option string)
| CallGet (part : string)
| CallGetNode (part tag : string) (line_number : Z)
| CallAddComment (start end_ : handle) (text : string)
| CallSuggestInsertion (part : string) (node : handle) (text : string)
| CallSuggestDeletion (part : string) (node : handle)
| CallSave
| CallPack (docx_path : string)
| CallValidate.

Definition writes (c : call) : bool :=
  match c with
  | CallSave | CallPack _ => true
  | _ => false
  end.

(** ** The state an operation runs in *)

Section Effects.
Context `{C : Collaborators}.

(** The persistent files (the archives, by path) and the log of collaborator
    calls.  The scratch directory of [tempfile.TemporaryDirectory()] lives
    and dies inside one operation and is a local value of it. *)
Record world : Type := World {
  disk : gmap string archive;
  calls : list call
}.

(** A computation that reads and writes the world and may raise. *)
Definition M (A : Type) : Type := world → outcome A * world.

Definition ret {A} (a : A) : M A := λ w, (Returns a, w).

Definition bind {A B} (m : M A) (k : A → M B) : M B :=
  λ w, match m w with
       | (Returns a, w') => k a w'
       | (Raises e, w') => (Raises e, w')
       end.

(** A collaborator call: logged, then its outcome. *)
Definition invoke {A} (c : call) (o : outcome A) : M A :=
  λ w, (o, World (disk w) (calls w ++ [c])).

(** [unpack_document(docx_path, unpack_dir)] reads the file at [docx_path]. *)
Definition do_unpack (docx_path : string) : M directory :=
  λ w, invoke (CallUnpack docx_path) (unpack_document (disk w !! docx_path)) w.

(** [pack_document(unpack_dir, docx_path)] replaces the file at [docx_path]
    when it returns. *)
Definition do_pack (unpack_dir : directory) (docx_path : string) : M unit :=
  λ w, match invoke (CallPack docx_path) (pack_document unpack_dir) w with
       | (Returns a, w') => (Returns (), World (<[docx_path := a]> (disk w')) (calls w'))
       | (Raises e, w') => (Raises e, w')
       end.

End Effects.

#[export] Instance M_ret `{C : Collaborators} : MRet M := @ret C.
#[export] Instance M_bind `{C : Collaborators} : MBind M := λ A B k m, bind m k.

(** ** scripts/word_ops.py *)

Module word_ops.
Section Operations.
Context `{C : Collaborators}.

Definition document_xml : string := "word/document.xml".

(** The lookup shared by the three editing operations: [get_node] by line
    number first; when it gives nothing, [location] as an index into
    [dom.getElementsByTagName("w:p")]. *)
Definition paragraph_by_index (dom : document) (location : Z) : option handle :=
  let paragraphs := Document_getElementsByTagName "w:p" dom in
  if (0 <=? location) && (location <? Z.of_nat (length paragraphs))
  then fst <$> paragraphs !! Z.to_nat location
  else None.

Definition find_paragraph (doc : registry) (dom : document) (location : Z)
  : M (option handle) :=
  node ← invoke (CallGetNode document_xml "w:p" location)
                (get_node doc document_xml "w:p" location) ;
  mret (match node with
       | Some n => Some n
       | None => paragraph_by_index dom location
       end).

Definition not_found (location : Z) : result :=
  [("success", JBool false);
   ("error", JStr ("Could not find paragraph at location " +:+ pretty location))].

Definition add_comment (docx_path : string) (location : Z) (text author : string)
  : M result :=
  unpack_dir ← do_unpack docx_path ;
  doc ← invoke (CallDocument (Some author) None)
               (Document unpack_dir (Some author) None) ;
  '(doc, dom) ← invoke (CallGet document_xml) (Document_get doc document_xml) ;
  node ← find_paragraph doc dom location ;
  match node with
  | None => mret (not_found location)
  | Some node =>
      doc ← invoke (CallAddComment node node text)
                   (Document_add_comment doc node node text) ;
      unpack_dir ← invoke CallSave (Document_save doc) ;
      do_pack unpack_dir docx_path ;;
      mret [("success", JBool true);
           ("message", JStr ("Comment added at location " +:+ pretty location));
           ("location", JInt location);
           ("text", JStr text);
           ("author", JStr author)]
  end.

(** [rnd] is the value [random.randint(0, 0xFFFF)] returns if it is called. *)
Definition ensure_rsid (rnd : Z) (dom : document) : document :=
  if negb (hasAttribute (rootAttributes dom) "w:rsidRDefault")
  then Document_node (rootTag dom)
         (setAttribute (rootAttributes dom) "w:rsidRDefault" (format_04X rnd))
         (rootChildren dom)
  else dom.

Definition enable_tracking (rnd : Z) (docx_path author initials : string) : M result :=
  unpack_dir ← do_unpack docx_path ;
  doc ← invoke (CallDocument (Some author) (Some initials))
               (Document unpack_dir (Some author) (Some initials)) ;
  '(doc, dom) ← invoke (CallGet document_xml) (Document_get doc document_xml) ;
  let doc := store_dom doc document_xml (ensure_rsid rnd dom) in
  unpack_dir ← invoke CallSave (Document_save doc) ;
  do_pack unpack_dir docx_path ;;
  mret [("success", JBool true);
       ("message", JStr "Revision tracking enabled");
       ("author", JStr author);
       ("initials", JStr initials)].

Definition suggest_insertion (docx_path : string) (location : Z) (text author : string)
  : M result :=
  unpack_dir ← do_unpack docx_path ;
  doc ← invoke (CallDocument (Some author) None)
               (Document unpack_dir (Some author) None) ;
  '(doc, dom) ← invoke (CallGet document_xml) (Document_get doc document_xml) ;
  node ← find_paragraph doc dom location ;
  match node with
  | None => mret (not_found location)
  | Some node =>
      doc ← invoke (CallSuggestInsertion document_xml node text)
                   (editor_suggest_insertion doc document_xml node text) ;
      unpack_dir ← invoke CallSave (Document_save doc) ;
      do_pack unpack_dir docx_path ;;
      mret [("success", JBool true);
            ("message", JStr ("Insertion suggested at location " +:+ pretty location));
            ("location", JInt location);
            ("text", JStr text)]
  end.

Definition suggest_deletion (docx_path : string) (location : Z) (author : string)
  : M result :=
  unpack_dir ← do_unpack docx_path ;
  doc ← invoke (CallDocument (Some author) None)
               (Document unpack_dir (Some author) None) ;
  '(doc, dom) ← invoke (CallGet document_xml) (Document_get doc document_xml) ;
  node ← find_paragraph doc dom location ;
  match node with
  | None => mret (not_found location)
  | Some node =>
      doc ← invoke (CallSuggestDeletion document_xml node)
                   (editor_suggest_deletion doc document_xml node) ;
      unpack_dir ← invoke CallSave (Document_save doc) ;
      do_pack unpack_dir docx_path ;;
      mret [("success", JBool true);
            ("message", JStr ("Deletion suggested at location " +:+ pretty location));
            ("location", JInt location)]
  end.

Definition validate_document (docx_path : string) : M result :=
  unpack_dir ← do_unpack docx_path ;
  result ← invoke CallValidate (DOCXSchemaValidator_validate unpack_dir) ;
  mret [("success", JBool (valid result));
        ("valid", JBool (valid result));
        ("errors", JList (JStr <$> errors result));
        ("warnings", JList (JStr <$> default [] (warnings result)))].

(** The parsed command line: [None] when no sub-command was given. *)
Inductive args : Type :=
| Args_add_comment (docx_path : string) (location : Z) (text author : string)
| Args_enable_tracking (docx_path author initials : string)
| Args_suggest_insertion (docx_path : string) (location : Z) (text author : string)
| Args_suggest_deletion (docx_path : string) (location : Z) (author : string)
| Args_validate (docx_path : string).

(** How the process ends: what it printed as JSON and its exit status, or an
    exception nobody caught (the interpreter prints a traceback and the
    status is 1). *)
Inductive process_end : Type :=
| Exit (printed : list result) (status : Z)
| Traceback (e : error).

Definition exit_status (p : process_end) : Z :=
  match p with
  | Exit _ status => status
  | Traceback _ => 1
  end.

(** [result and not result.get("success", True)]. *)
Definition failed (r : result) : bool :=
  match r with
  | [] => false
  | _ => negb (truthy (default (JBool true) (dict_get r "success")))
  end.

Definition run (rnd : Z) (a : args) : M result :=
  match a with
  | Args_add_comment p l t au => add_comment p l t au
  | Args_enable_tracking p au i => enable_tracking rnd p au i
  | Args_suggest_insertion p l t au => suggest_insertion p l t au
  | Args_suggest_deletion p l au => suggest_deletion p l au
  | Args_validate p => validate_document p
  end.

Definition main (rnd : Z) (command : option args) (w : world) : process_end * world :=
  match command with
  | None => (Exit [] 1, w)
  | Some a =>
      match run rnd a w with
      | (Returns result, w') => (Exit [result] (if failed result then 1 else 0), w')
      | (Raises e, w') => (Traceback e, w')
      end
  end.

End Operations.
End word_ops.

(** ** scripts/word_cli.py *)

Module word_cli.
Section Operations.
Context `{C : Collaborators}.

(** ["".join([n.firstChild.nodeValue for n in text_nodes if n.firstChild])]:
    a [nodeValue] of [None] makes [join] raise. *)
Definition first_values (text_nodes : list node) : list (option string) :=
  omap (λ n, nodeValue <$> firstChild n) text_nodes.

Fixpoint join_items (k : nat) (items : list (option string)) : outcome string :=
  match items with
  | [] => Returns ""
  | None :: _ =>
      Raises (Error TypeError ("sequence item " +:+ pretty k
                               +:+ ": expected str instance, NoneType found"))
  | Some s :: rest =>
      match join_items (S k) rest with
      | Returns t => Returns (s +:+ t)
      | Raises e => Raises e
      end
  end.

Definition paragraph_text (p : node) : outcome string :=
  join_items 0 (first_values (getElementsByTagName "w:t" p)).

(** The loop body of [read_document] over [enumerate(paragraphs)] from
    index [i] on. *)
Fixpoint collect (i : Z) (paragraphs : list node) : outcome (list (Z * string)) :=
  match paragraphs with
  | [] => Returns []
  | p :: rest =>
      match paragraph_text p with
      | Raises e => Raises e
      | Returns text =>
          match collect (i + 1) rest with
          | Raises e => Raises e
          | Returns content =>
              Returns (if str_truthy (strip text)
                       then (i, strip text) :: content else content)
          end
      end
  end.

Definition entry (it : Z * string) : json :=
  JDict [("index", JInt it.1); ("text", JStr it.2)].

Definition failure (e : error) : result :=
  [("success", JBool false); ("error", JStr (message e))].

Definition read_document (unpacked_dir : directory) : result :=
  match Document unpacked_dir None None with
  | Raises e => failure e
  | Returns doc =>
      match Document_get doc "word/document.xml" with
      | Raises e => failure e
      | Returns (_, dom) =>
          match collect 0 (snd <$> Document_getElementsByTagName "w:p" dom) with
          | Raises e => failure e
          | Returns content =>
              [("success", JBool true); ("content", JList (entry <$> content))]
          end
      end
  end.

Definition required_files : list string := ["word/document.xml"; "[Content_Types].xml"].

Definition validate_document (unpacked_dir : directory) : result :=
  match Document unpacked_dir None None with
  | Raises e =>
      [("success", JBool false); ("valid", JBool false);
       ("errors", JList [JStr (message e)])]
  | Returns doc =>
      let missing_files :=
        filter (λ file, path_exists unpacked_dir file = false) required_files in
      match missing_files with
      | _ :: _ =>
          [("success", JBool false); ("valid", JBool false);
           ("errors", JList [JStr ("Missing required files: "
                                   +:+ join_with ", " missing_files)])]
      | [] =>
          [("success", JBool true); ("valid", JBool true);
           ("errors", JList []); ("warnings", JList [])]
      end
  end.

Inductive command : Type := Read | Validate.

(** [main] prints the result of the chosen operation and returns. *)
Definition main (cmd : command) (unpacked_dir : directory) : word_ops.process_end :=
  match cmd with
  | Read => word_ops.Exit [read_document unpacked_dir] 0
  | Validate => word_ops.Exit [validate_document unpacked_dir] 0
  end.

End Operations.
End word_cli.

(** ** Document order *)

(** [handle_lt h1 h2]: the node at [h1] starts before the node at [h2] in
    the serialized part (an ancestor starts before its descendants). *)
Fixpoint handle_ltb (h1 h2 : handle) : bool :=
  match h1, h2 with
  | [], [] => false
  | [], _ :: _ => true
  | _ :: _, [] => false
  | i :: r1, j :: r2 =>
      if (i <? j)%nat then true
      else if (j <? i)%nat then false
      else handle_ltb r1 r2
  end.

Definition handle_lt (h1 h2 : handle) : Prop := handle_ltb h1 h2 = true.

(** ** The serialized form of a part *)

(** A part on disk, after lexing: start tags with their attributes, end
    tags and character data.  Well-formed means the tags nest and match
    and there is exactly one outermost element. *)
Inductive token : Type :=
| TOpen (tag : string) (attrs : list (string * string))
| TClose (tag : string)
| TChars (s : string).

Fixpoint serialize_node (n : node) : list token :=
  match n with
  | Element t a kids =>
      TOpen t a ::
      (fix all (kids : list node) : list token :=
         match kids with
         | [] => []
         | k :: rest => serialize_node k ++ all rest
         end) kids ++ [TClose t]
  | Text s => [TChars s]
  end.

Definition serialize_nodes (kids : list node) : list token :=
  mbind serialize_node kids.

Definition serialize (d : document) : list token :=
  serialize_node (documentElement d).

(** An element whose end tag has not been read yet: its start tag and the
    children read so far, last first. *)
Definition frame : Type := string * list (string * string) * list node.

(** One pass over the tokens with the stack of open elements; [done] holds
    the outermost nodes read so far, last first. *)
Fixpoint parse_tokens (ts : list token) (stack : list frame) (done : list node)
  : option (list node) :=
  match ts with
  | [] => match stack with [] => Some (reverse done) | _ :: _ => None end
  | TOpen t a :: ts' => parse_tokens ts' ((t, a, []) :: stack) done
  | TChars s :: ts' =>
      match stack with
      | [] => parse_tokens ts' [] (Text s :: done)
      | (t, a, kids) :: up => parse_tokens ts' ((t, a, Text s :: kids) :: up) done
      end
  | TClose t :: ts' =>
      match stack with
      | [] => None
      | (t', a, kids) :: up =>
          if bool_decide (t = t') then
            let e := Element t' a (reverse kids) in
            match up with
            | [] => parse_tokens ts' [] (e :: done)
            | (t2, a2, kids2) :: up2 => parse_tokens ts' ((t2, a2, e :: kids2) :: up2) done
            end
          else None
      end
  end.

(** A part parses when it holds exactly one outermost element and nothing
    else. *)
Definition parse (ts : list token) : option document :=
  match parse_tokens ts [] [] with
  | Some [Element t a kids] => Some (Document_node t a kids)
  | _ => None
  end.

(** ** Editing a tree through a handle *)

(** The siblings [cs] with the node at [h] replaced by the nodes [f] makes
    of it; a handle that leads nowhere changes nothing. *)
Fixpoint splice_in (f : node → list node) (h : handle) (cs : list node) : list node :=
  match h with
  | [] => cs
  | i :: h' =>
      match cs !! i with
      | None => cs
      | Some c =>
          match h' with
          | [] => take i cs ++ f c ++ drop (S i) cs
          | _ :: _ =>
              match c with
              | Element t a kids => <[i := Element t a (splice_in f h' kids)]> cs
              | Text _ => cs
              end
          end
      end
  end.

(** The same on a document; [None] when the handle leads nowhere or the
    edit would leave the document without a single document element. *)
Definition splice (f : node → list node) (h : handle) (d : document) : option document :=
  match resolve d h with
  | None => None
  | Some _ =>
      match splice_in f h [documentElement d] with
      | [Element t a kids] => Some (Document_node t a kids)
      | _ => None
      end
  end.

(** The archive codec, the part registry, the node locator, the revision
    engine and the validator are not among the sources; the module below
    follows their description. *)
Module SpecModel.

(** Modelled from the spec: the archive format read by
    [ooxml/scripts/unpack.py] and written by [ooxml/scripts/pack.py], which
    are missing: the Archive, an ordered collection of named entries, or a
    file that is not a readable zip. *)
Inductive zip_file : Type :=
| Zip (entries : list (string * list token))
| Truncated.

Definition content_types : string := "[Content_Types].xml".
Definition body_part : string := "word/document.xml".
Definition comments_part : string := "word/comments.xml".

(** Modelled from the spec: [unpack_document] of [ooxml/scripts/unpack.py],
    which is missing.  [unpack(archivePath, destDir)] extracts every entry;
    [ArchiveCorrupt] when the archive cannot be opened or read. *)
Definition unpack (file : option zip_file) : outcome (gmap string (list token)) :=
  match file with
  | Some (Zip entries) => Returns (list_to_map entries)
  | Some Truncated => Raises (Error ArchiveCorrupt "File is not a zip file")
  | None => Raises (Error ArchiveCorrupt "No such file")
  end.

(** Modelled from the spec: [pack_document] of [ooxml/scripts/pack.py],
    which is missing.  [pack(sourceDir, archivePath)] writes every file as
    an entry, the content-types declaration first; [MissingContentTypes]
    when that part is absent. *)
Definition pack (dir : gmap string (list token)) : outcome zip_file :=
  match dir !! content_types with
  | None => Raises (Error MissingContentTypes "[Content_Types].xml is missing")
  | Some ct => Returns (Zip ((content_types, ct) :: map_to_list (delete content_types dir)))
  end.

(** Modelled from the spec: the state of the [Document] class of
    [scripts/document.py], which is missing: the Part Registry.  [parts]
    holds the parts accessed so far: the parsed tree, the source line of each element in
    document order when the parser kept it, and the dirty flag. *)
Record part : Type := Part {
  tree : document;
  lines : option (list Z);
  dirty : bool
}.

Record registry_state : Type := Registry {
  unpacked_dir : gmap string (list token);
  parts : gmap string part;
  author : string;
  initials : string;
  next_revision : Z
}.

(** What the parser is configured to do, and the value the session
    identifier generator draws. *)
Record settings : Type := Settings {
  keeps_lines : bool;
  seed : Z
}.

(** The source line (from 1) of each start tag, in order. *)
Definition newlines (s : string) : Z :=
  Z.of_nat (length (filter (λ c, c = "010"%char) (String.list_ascii_of_string s))).

Fixpoint element_lines (line : Z) (ts : list token) : list Z :=
  match ts with
  | [] => []
  | TOpen _ _ :: rest => line :: element_lines line rest
  | TClose _ :: rest => element_lines line rest
  | TChars s :: rest => element_lines (line + newlines s) rest
  end.

(** Modelled from the spec: the constructor of [Document], which is
    missing.  [open(unpackedDir, authorContext)] constructs a registry bound
    to the directory and parses nothing. *)
Definition open (dir : gmap string (list token)) (author initials : option string)
  : outcome registry_state :=
  Returns (Registry dir ∅ (default "Claude" author) (default "C" initials) 0).

(** Modelled from the spec: [Document.__getitem__] and [Document.get],
    which are missing.  [get(logicalPath)] parses the part on first access;
    [PartNotFound] when there is no such file, [MalformedXml] when it does
    not parse. *)
Definition get (cfg : settings) (reg : registry_state) (path : string)
  : outcome (registry_state * document) :=
  match parts reg !! path with
  | Some p => Returns (reg, tree p)
  | None =>
      match unpacked_dir reg !! path with
      | None => Raises (Error PartNotFound ("No such part: " +:+ path))
      | Some ts =>
          match parse ts with
          | None => Raises (Error MalformedXml ("Malformed XML in " +:+ path))
          | Some d =>
              let p := Part d (if keeps_lines cfg then Some (element_lines 1 ts) else None)
                         false in
              Returns (Registry (unpacked_dir reg) (<[path := p]> (parts reg))
                         (author reg) (initials reg) (next_revision reg), d)
          end
      end
  end.

(** A mutation of a part's tree sets its dirty flag. *)
Definition put (reg : registry_state) (path : string) (d : document) : registry_state :=
  Registry (unpacked_dir reg)
    (<[path := Part d (parts reg !! path ≫= lines) true]> (parts reg))
    (author reg) (initials reg) (next_revision reg).

(** Modelled from the spec: [Document.save], which is missing.  [save()]
    serializes every dirty part to its file and leaves the others
    untouched. *)
Definition save (reg : registry_state) : outcome (gmap string (list token)) :=
  Returns (((λ p, serialize (tree p)) <$> filter (λ kv, dirty kv.2 = true) (parts reg))
           ∪ unpacked_dir reg).

(** Modelled from the spec: the index lookup of the node locator of
    [scripts/document.py], which is missing.
    [findByTagAndIndex(part, tag, index)] is the [index]-th element with
    that tag in document order, or not found. *)
Definition findByTagAndIndex (d : document) (tag : string) (index : Z) : option handle :=
  if 0 <=? index then fst <$> Document_getElementsByTagName tag d !! Z.to_nat index
  else None.

(** Modelled from the spec: the editor's [get_node], which is missing.
    [findByTagAndLine(part, tag, lineNumber)] uses the line metadata when
    the parser kept it, and otherwise takes the line number as an index. *)
Definition findByTagAndLine (p : part) (tag : string) (line_number : Z) : option handle :=
  match lines p with
  | None => findByTagAndIndex (tree p) tag line_number
  | Some ls =>
      (λ x, x.1.1) <$>
      head (filter (λ x, tag_matches tag x.1.2 = true ∧ x.2 = line_number)
              (zip (Document_getElementsByTagName "*" (tree p)) ls))
  end.

Definition locate (reg : registry_state) (path tag : string) (line_number : Z)
  : outcome (option handle) :=
  match parts reg !! path with
  | None => Raises (Error PartNotFound ("No such part: " +:+ path))
  | Some p => Returns (findByTagAndLine p tag line_number)
  end.

(** Modelled from the spec: the session identifier of the revision engine
    of [scripts/document.py], which is missing.  [enableTracking] makes sure
    the document root carries a session identifier; the revision operations
    create it on demand. *)
Definition enableTracking (cfg : settings) (d : document) : document :=
  word_ops.ensure_rsid (seed cfg) d.

Definition tracked (name id who : string) (content : list node) : node :=
  Element name [("w:id", id); ("w:author", who)] content.

Definition run_of (text : string) : node :=
  Element "w:r" [] [Element "w:t" [] [Text text]].

Definition range_marker (name id : string) : node := Element name [("w:id", id)] [].

Definition bump (reg : registry_state) : registry_state :=
  Registry (unpacked_dir reg) (parts reg) (author reg) (initials reg)
    (next_revision reg + 1).

(** Modelled from the spec: [Document.add_comment], which is missing.
    [addComment(part, startNode, endNode, text, author)] adds a comment
    definition to the comments part, created when absent, and puts range
    markers around [[startNode, endNode]]; [InvalidRange] when the end node
    comes before the start node. *)
Definition addComment (cfg : settings) (reg : registry_state) (start end_ : handle)
    (text : string) : outcome registry_state :=
  match parts reg !! body_part with
  | None => Raises (Error PartNotFound ("No such part: " +:+ body_part))
  | Some p =>
      if handle_ltb end_ start
      then Raises (Error InvalidRange "Comment range ends before it starts")
      else
        let id := pretty (next_revision reg) in
        match splice (λ n, [n; range_marker "w:commentRangeEnd" id]) end_
                (enableTracking cfg (tree p))
              ≫= splice (λ n, [range_marker "w:commentRangeStart" id; n]) start with
        | None => Raises (Error LocationNotFound "No such node")
        | Some body =>
            let comments :=
              match get cfg reg comments_part with
              | Returns (_, c) => Returns c
              | Raises e =>
                  match kind e with
                  | PartNotFound => Returns (Document_node "w:comments" [] [])
                  | _ => Raises e
                  end
              end in
            match comments with
            | Raises e => Raises e
            | Returns c =>
                let entry :=
                  Element "w:comment"
                    [("w:id", id); ("w:author", author reg); ("w:initials", initials reg)]
                    [Element "w:p" [] [run_of text]] in
                let c' := Document_node (rootTag c) (rootAttributes c)
                            (rootChildren c ++ [entry]) in
                Returns (bump (put (put reg body_part body) comments_part c'))
            end
        end
  end.

(** Modelled from the spec: the editor's [suggest_insertion], which is
    missing.  [suggestInsertion(part, node, text, author)] puts the new
    text, wrapped in an insertion-tracking element, next to the node. *)
Definition suggestInsertion (cfg : settings) (reg : registry_state) (path : string)
    (h : handle) (text : string) : outcome registry_state :=
  match parts reg !! path with
  | None => Raises (Error PartNotFound ("No such part: " +:+ path))
  | Some p =>
      let ins := tracked "w:ins" (pretty (next_revision reg)) (author reg) [run_of text] in
      match splice (λ n, [n; ins]) h (enableTracking cfg (tree p)) with
      | None => Raises (Error LocationNotFound "No such node")
      | Some d => Returns (bump (put reg path d))
      end
  end.

(** Visible text runs become deleted-text markup, at any depth. *)
Fixpoint deleted_text (n : node) : node :=
  match n with
  | Element t a kids =>
      Element (if bool_decide (t = "w:t") then "w:delText" else t) a
        ((fix all (kids : list node) : list node :=
            match kids with
            | [] => []
            | k :: rest => deleted_text k :: all rest
            end) kids)
  | Text s => Text s
  end.

Definition mark_deleted (id who : string) (n : node) : node :=
  match n with
  | Element t a kids => Element t a [tracked "w:del" id who (deleted_text <$> kids)]
  | Text s => Text s
  end.

(** Modelled from the spec: the editor's [suggest_deletion], which is
    missing.  [suggestDeletion(part, node, author)] wraps the node's content
    in a deletion-tracking element and removes nothing. *)
Definition suggestDeletion (cfg : settings) (reg : registry_state) (path : string)
    (h : handle) : outcome registry_state :=
  match parts reg !! path with
  | None => Raises (Error PartNotFound ("No such part: " +:+ path))
  | Some p =>
      let id := pretty (next_revision reg) in
      match splice (λ n, [mark_deleted id (author reg) n]) h
              (enableTracking cfg (tree p)) with
      | None => Raises (Error LocationNotFound "No such node")
      | Some d => Returns (bump (put reg path d))
      end
  end.

(** Modelled from the spec: [DOCXSchemaValidator.validate] of
    [ooxml/scripts/validation/docx.py], which is missing.
    [validate(unpackedDir)] checks that the mandatory parts are present and
    that each parses. *)
Definition part_errors (dir : gmap string (list token)) (path : string) : list string :=
  match dir !! path with
  | None => ["Missing required part: " +:+ path]
  | Some ts =>
      match parse ts with
      | None => ["Malformed XML in part: " +:+ path]
      | Some _ => []
      end
  end.

Definition validate (dir : gmap string (list token)) : outcome validation_result :=
  let errs := part_errors dir body_part ++ part_errors dir content_types in
  Returns (ValidationResult (bool_decide (errs = [])) errs (Some [])).

(** The archive [enable_tracking] leaves behind for an archive with the
    given entries, content-types part [ct] and body tree [d]. *)
Definition packed (entries : list (string * list token)) (ct : list token)
    (d : document) (rnd : Z) : zip_file :=
  Zip ((content_types, ct)
       :: map_to_list (delete content_types
                         (<[body_part := serialize (word_ops.ensure_rsid rnd d)]>
                            (list_to_map entries : gmap string (list token))))).

(** The collaborators as described. *)
Definition collaborators (cfg : settings) : Collaborators := {|
  archive := zip_file;
  directory := gmap string (list token);
  registry := registry_state;
  unpack_document := unpack;
  Document := open;
  Document_get := get cfg;
  get_node := locate;
  store_dom := put;
  Document_add_comment := addComment cfg;
  editor_suggest_insertion := suggestInsertion cfg;
  editor_suggest_deletion := suggestDeletion cfg;
  Document_save := save;
  pack_document := pack;
  DOCXSchemaValidator_validate := validate;
  path_exists := λ dir file, bool_decide (is_Some (dir !! file))
|}.

End SpecModel.

(** ** A sample document *)

Module Sample.
Import SpecModel.

Definition para (text : string) : node :=
  Element "w:p" [] [Element "w:r" [] [Element "w:t" [] [Text text]]].

(** Three paragraphs, the second of them blank, one per source line. *)
Definition body : document :=
  Document_node "w:document" []
    [Element "w:body" []
       [Text (String "010" ""); para "Alpha";
        Text (String "010" ""); para "   ";
        Text (String "010" ""); para " Gamma "]].

Definition types : list token := [TOpen "Types" []; TClose "Types"].

Definition docx : zip_file :=
  Zip [(content_types, types); (body_part, serialize body)].

Definition broken_docx : zip_file :=
  Zip [(content_types, types); (body_part, [TOpen "w:document" []; TOpen "w:body" []])].

Definition disk0 : gmap string zip_file :=
  {[ "a.docx" := docx; "bad.docx" := Truncated; "broken.docx" := broken_docx ]}.

Definition by_index : settings := Settings false 4660.

Definition start (cfg : settings) : @world (collaborators cfg) :=
  @World (collaborators cfg) disk0 [].

End Sample.

(** ** Properties of runs and results *)

(** A structured failure: [success] is [false] and [error] is a string. *)
Definition is_failure (r : result) : Prop :=
  dict_get r "success" = Some (JBool false) ∧ ∃ msg, dict_get r "error" = Some (JStr msg).

(** A run from [w] that returns a structured failure, leaves every file as
    it was and calls neither [save] nor [pack_document]. *)
Definition fails_cleanly `{C : Collaborators} (w : world) (run : outcome result * world)
  : Prop :=
  ∃ r new,
    run.1 = Returns r ∧ is_failure r
    ∧ disk run.2 = disk w
    ∧ calls run.2 = calls w ++ new
    ∧ Forall (λ c, writes c = false) new.

(** The [--docx_path] of a command line. *)
Definition docx_path_of (a : word_ops.args) : string :=
  match a with
  | word_ops.Args_add_comment p _ _ _ | word_ops.Args_enable_tracking p _ _
  | word_ops.Args_suggest_insertion p _ _ _ | word_ops.Args_suggest_deletion p _ _
  | word_ops.Args_validate p => p
  end.

(** The field [key] of [r] is a list of strings. *)
Definition string_list_field (r : result) (key : string) : Prop :=
  ∃ items : list string, dict_get r key = Some (JList (JStr <$> items)).

(** Some mandatory file is absent from the directory. *)
Definition some_missing `{C : Collaborators} (dir : directory) : Prop :=
  ∃ file, file ∈ word_cli.required_files ∧ path_exists dir file = false.

(** The text [read_document] takes from a paragraph whose [w:t] elements
    hold character data: the data of the first child of each, in document
    order. *)
Definition w_t_text (p : node) : string :=
  join (omap (λ n, firstChild n ≫= nodeValue) (getElementsByTagName "w:t" p)).

(** Every non-empty [w:t] below [p] starts with character data. *)
Definition text_runs_ok (p : node) : bool :=
  forallb (λ n, match firstChild n with
                | Some (Element _ _ _) => false
                | _ => true
                end) (getElementsByTagName "w:t" p).

(** The entries [read_document] reports for a list of paragraphs numbered
    from [i]. *)
Fixpoint visible_from (i : Z) (paragraphs : list node) : list (Z * string) :=
  match paragraphs with
  | [] => []
  | p :: rest =>
      let t := strip (w_t_text p) in
      if bool_decide (t = "") then visible_from (i + 1) rest
      else (i, t) :: visible_from (i + 1) rest
  end.

(** The children of a node; character data has none. *)
Definition kids_of (n : node) : list node :=
  match n with
  | Element _ _ kids => kids
  | Text _ => []
  end.

(** What [elements_from] lists, in terms of handles: exactly the nodes with
    the wanted tag that a handle reaches, each under its own handle. *)
Definition listed (name : string) (cs : list node) : Prop :=
  ∀ i h m,
    (h, m) ∈ elements_from name i cs
    ↔ ∃ k h', h = (i + k)%nat :: h' ∧ resolve_in cs (k :: h') = Some m
              ∧ tag_matches name m = true.

(** The parser state after a whole node has been read: the node joins the
    children of the innermost open element, or the outermost nodes. *)
Definition add_node (n : node) (stack : list frame) (done : list node)
  : list frame * list node :=
  match stack with
  | [] => ([], n :: done)
  | (t, a, kids) :: up => ((t, a, n :: kids) :: up, done)
  end.

(** All character data below a node, in document order. *)
Fixpoint text_content (n : node) : string :=
  match n with
  | Element _ _ kids =>
      (fix all (kids : list node) : string :=
         match kids with
         | [] => ""
         | k :: rest => text_content k +:+ all rest
         end) kids
  | Text s => s
  end.

(** The comment ranges an operation asked for, by its call log. *)
Definition comment_ranges (log : list call) : list (handle * handle * string) :=
  omap (λ c, match c with
             | CallAddComment s e t => Some (s, e, t)
             | _ => None
             end) log.

(** The outcome is an [InvalidRange] exception. *)
Definition raises_invalid_range {A : Type} (o : outcome A) : Prop :=
  ∃ e, o = Raises e ∧ kind e = InvalidRange.

(** What the description says of [InvalidRange]: only [add_comment] raises
    it, and only for an end node that comes before the start node. *)
Definition range_contract `{C : Collaborators} : Prop :=
  (∀ file, ¬ raises_invalid_range (unpack_document file))
  ∧ (∀ dir author initials, ¬ raises_invalid_range (Document dir author initials))
  ∧ (∀ doc path, ¬ raises_invalid_range (Document_get doc path))
  ∧ (∀ doc path tag line, ¬ raises_invalid_range (get_node doc path tag line))
  ∧ (∀ doc, ¬ raises_invalid_range (Document_save doc))
  ∧ (∀ dir, ¬ raises_invalid_range (pack_document dir))
  ∧ (∀ doc s e text,
       raises_invalid_range (Document_add_comment doc s e text) → handle_lt e s).

(** How [add_comment] can have come to the node [h]: by the line lookup,
    or by the index, and then [h] leads to a [w:p] element. *)
Definition located `{C : Collaborators} (w : world) (docx_path : string) (location : Z)
    (author : string) (h : handle) : Prop :=
  ∃ unpack_dir doc doc' dom,
    unpack_document (disk w !! docx_path) = Returns unpack_dir
    ∧ Document unpack_dir (Some author) None = Returns doc
    ∧ Document_get doc word_ops.document_xml = Returns (doc', dom)
    ∧ (get_node doc' word_ops.document_xml "w:p" location = Returns (Some h)
       ∨ (get_node doc' word_ops.document_xml "w:p" location = Returns None
          ∧ word_ops.paragraph_by_index dom location = Some h
          ∧ ∃ a kids, resolve dom h = Some (Element "w:p" a kids))).

(** What an operation on the file at [docx_path] loads: the registry and
    the body tree it gets from the archive found there. *)
Definition loads `{C : Collaborators} (w : world) (docx_path : string)
    (author initials : option string) (doc : registry) (dom : document) : Prop :=
  ∃ unpack_dir doc0,
    unpack_document (disk w !! docx_path) = Returns unpack_dir
    ∧ Document unpack_dir author initials = Returns doc0
    ∧ Document_get doc0 word_ops.document_xml = Returns (doc, dom).

(** The registry [doc] is saved and packed, and the archive replaces the
    file at [docx_path]. *)
Definition writes_back `{C : Collaborators} (w w' : world) (docx_path : string)
    (doc : registry) : Prop :=
  ∃ unpack_dir a,
    Document_save doc = Returns unpack_dir
    ∧ pack_document unpack_dir = Returns a
    ∧ disk w' = <[docx_path := a]> (disk w).

(** What the description says of [save], [pack] and [unpack] (round trip):
    a tree put into the body part, saved and packed, is the tree a registry
    opened on the directory unpacked from that archive hands out. *)
Definition reload_contract `{C : Collaborators} : Prop :=
  ∀ doc dom unpack_dir a author initials unpack_dir' doc0 doc' dom',
    Document_save (store_dom doc word_ops.document_xml dom) = Returns unpack_dir →
    pack_document unpack_dir = Returns a →
    unpack_document (Some a) = Returns unpack_dir' →
    Document unpack_dir' author initials = Returns doc0 →
    Document_get doc0 word_ops.document_xml = Returns (doc', dom') →
    dom' = dom.

(** The concatenated text of the [w:t] elements below a paragraph. *)
Definition concatenated_text (p : node) : string :=
  join (text_content <$> getElementsByTagName "w:t" p).

(** Every [w:t] below [p] is empty or holds one character-data node, as a
    parser leaves plain text. *)
Definition plain_runs (p : node) : bool :=
  forallb (λ n, match n with
                | Element _ _ [] | Element _ _ [Text _] => true
                | _ => false
                end) (getElementsByTagName "w:t" p).

(** ** download-pyodide.py and scripts/verify-pyodide.py

    Both scripts work on the Pyodide directory.  What they print is left
    to the status marks; what they return, count and write is modelled. *)

(** An entry of [packages.json]; a field is [None] when the key is absent
    ([pkg_info.get(key, default)]). *)
Record pkg_info : Type := PkgInfo {
  pkg_files : option (list string);
  pkg_version : option string;
  package_size : option Z
}.

Definition PYODIDE_VERSION : string := "0.29.3".

Definition CORE_FILES : list string :=
  ["pyodide.js"; "pyodide.asm.js"; "pyodide.asm.data"; "pyodide_asm.wasm";
   "pyodide-lock.json"; "packages.json"; "micropip.py"].

Definition PYTHON_PACKAGES : list string :=
  ["openpyxl"; "lxml"; "defusedxml"; "Pillow"; "xlsxwriter"; "python-pptx";
   "pypdf"; "pdfplumber"; "reportlab"; "numpy"; "pandas"].

Module download_pyodide.

Definition MIRROR_URLS : list string :=
  ["https://registry.npmmirror.com/pyodide/-/pyodide-0.29.3.tgz";
   "https://cdn.jsdelivr.net/npm/pyodide@0.29.3/full/";
   "https://cdn.jsdelivr.net/pyodide/v0.29.3/full/";
   "https://unpkg.com/pyodide@0.29.3/full/";
   "https://github.com/pyodide/pyodide/releases/download/0.29.3/pyodide-0.29.3.tar.bz2"].

(** What [urlretrieve(url, dest)] does: the file is saved; [URLError] is
    raised, before the file is opened or, as [ContentTooShortError], after
    a shorter file has been written; or another exception is raised, again
    before or after the file is opened.  [written] tells whether the call
    leaves a file at [dest]. *)
Inductive retrieved : Type :=
| Saved
| UrlError (written : bool)
| OtherError (written : bool) (e : error).

(** The network: [urlopen(url).read()] gives the length of the data, or
    [None] when anything raises; [urlretrieve] as above. *)
Record network : Type := Network {
  urlopen : string → option Z;
  urlretrieve : string → retrieved
}.

(** The directories the script makes sure exist, with
    [mkdir(parents=True, exist_ok=True)]: [OUTPUT_DIR], [OUTPUT_DIR /
    "packages"], and the parent of a destination below [OUTPUT_DIR]. *)
Inductive folder : Type :=
| OUTPUT_DIR
| packages_dir
| parent_of (dest : string).

(** The output directory, taken to be writable ([mkdir] and [open] for
    writing do not raise): the files that exist (by path below
    [OUTPUT_DIR]), what [json.load] makes of [packages.json] when it is
    read ([None] when it raises), the URLs handed to [urlretrieve] so far,
    and the directories made so far. *)
Record output : Type := Output {
  existing : gset string;
  index : option (gmap string pkg_info);
  fetched : list string;
  made : list folder
}.

Definition mkdir (d : folder) (o : output) : output :=
  Output (existing o) (index o) (fetched o) (made o ++ [d]).

Definition test_mirror (net : network) (url : string) : bool :=
  match urlopen net (url +:+ "packages.json") with
  | Some len => 1000 <? len
  | None => false
  end.

(** [select_mirror] over the mirrors still to try. *)
Fixpoint select_from (net : network) (mirrors : list string) : outcome string :=
  match mirrors with
  | [] => Raises (Error IoFailure "No available mirror found!")
  | mirror :: rest => if test_mirror net mirror then Returns mirror else select_from net rest
  end.

Definition select_mirror (net : network) : outcome string := select_from net MIRROR_URLS.

(** [download_file(url, dest)]: the parent directory is made, then
    [urlretrieve] is called; [URLError] is caught and gives [False], any
    other exception leaves the function.  Nothing removes a file that
    [urlretrieve] has left behind. *)
Definition download_file (net : network) (url dest : string) (o : output)
  : outcome bool * output :=
  let o := mkdir (parent_of dest) o in
  let kept := Output (existing o) (index o) (fetched o ++ [url]) (made o) in
  let written := Output ({[dest]} ∪ existing o) (index o) (fetched o ++ [url]) (made o) in
  match urlretrieve net url with
  | Saved => (Returns true, written)
  | UrlError w => (Returns false, if w then written else kept)
  | OtherError w e => (Raises e, if w then written else kept)
  end.

(** The loop of [download_pyodide_core] over the files still to do, with
    the count so far. *)
Fixpoint core_loop (net : network) (base_url : string) (files : list string)
    (success_count : Z) (o : output) : outcome Z * output :=
  match files with
  | [] => (Returns success_count, o)
  | filename :: rest =>
      if bool_decide (filename ∈ existing o)
      then core_loop net base_url rest (success_count + 1) o
      else
        match download_file net (base_url +:+ filename) filename o with
        | (Returns true, o') => core_loop net base_url rest (success_count + 1) o'
        | (Returns false, o') => core_loop net base_url rest success_count o'
        | (Raises e, o') => (Raises e, o')
        end
  end.

Definition download_pyodide_core (net : network) (base_url : string) (o : output)
  : outcome bool * output :=
  match core_loop net base_url CORE_FILES 0 o with
  | (Returns success_count, o') => (Returns (0 <? success_count), o')
  | (Raises e, o') => (Raises e, o')
  end.

(** The inner loop of [download_pyodide_packages] over the files of one
    package. *)
Fixpoint files_loop (net : network) (base_url : string) (files : list string)
    (downloaded : Z) (o : output) : outcome Z * output :=
  match files with
  | [] => (Returns downloaded, o)
  | file_name :: rest =>
      if bool_decide ("packages/" +:+ file_name ∈ existing o)
      then files_loop net base_url rest downloaded o
      else
        match download_file net (base_url +:+ "packages/" +:+ file_name)
                ("packages/" +:+ file_name) o with
        | (Returns true, o') => files_loop net base_url rest (downloaded + 1) o'
        | (Returns false, o') => files_loop net base_url rest downloaded o'
        | (Raises e, o') => (Raises e, o')
        end
  end.

(** The outer loop, with [downloaded] and [total_size] so far. *)
Fixpoint packages_loop (net : network) (base_url : string)
    (packages : gmap string pkg_info) (names : list string)
    (downloaded total_size : Z) (o : output) : outcome (Z * Z) * output :=
  match names with
  | [] => (Returns (downloaded, total_size), o)
  | pkg_name :: rest =>
      match packages !! pkg_name with
      | None => packages_loop net base_url packages rest downloaded total_size o
      | Some info =>
          let total_size := total_size + default 0 (package_size info) in
          match files_loop net base_url (default [] (pkg_files info)) downloaded o with
          | (Returns downloaded, o') =>
              packages_loop net base_url packages rest downloaded total_size o'
          | (Raises e, o') => (Raises e, o')
          end
      end
  end.

Definition download_pyodide_packages (net : network) (base_url : string) (o : output)
  : outcome bool * output :=
  if bool_decide ("packages.json" ∈ existing o) then
    match index o with
    | None => (Raises (Error IoFailure "JSONDecodeError"), o)
    | Some packages =>
        match packages_loop net base_url packages PYTHON_PACKAGES 0 0
                (mkdir packages_dir o) with
        | (Returns _, o') => (Returns true, o')
        | (Raises e, o') => (Raises e, o')
        end
    end
  else (Returns false, o).

Definition create_version_file (o : output) : output :=
  Output ({["version.json"]} ∪ existing o) (index o) (fetched o) (made o).

(** [main]: how the process ends (its exit status, or an exception nobody
    caught) and the directory it leaves. *)
Definition main (net : network) (o : output) : outcome Z * output :=
  let o := mkdir OUTPUT_DIR o in
  match select_mirror net with
  | Raises _ => (Returns 1, o)
  | Returns base_url =>
      match download_pyodide_core net base_url o with
      | (Raises e, o1) => (Raises e, o1)
      | (Returns false, o1) => (Returns 1, o1)
      | (Returns true, o1) =>
          match download_pyodide_packages net base_url o1 with
          | (Raises e, o2) => (Raises e, o2)
          | (Returns false, o2) => (Returns 1, o2)
          | (Returns true, o2) => (Returns 0, create_version_file o2)
          end
      end
  end.

(** No [urlretrieve] raises anything but [URLError]. *)
Definition only_url_errors (net : network) : Prop :=
  ∀ url written e, urlretrieve net url ≠ OtherError written e.

(** [urlretrieve] saved the whole file. *)
Definition saved (r : retrieved) : bool :=
  match r with
  | Saved => true
  | _ => false
  end.

(** A core file counts when it was there or its download succeeded. *)
Definition counted (net : network) (base_url : string) (o : output) (f : string) : Prop :=
  f ∈ existing o ∨ saved (urlretrieve net (base_url +:+ f)) = true.

#[export] Instance counted_dec (net : network) (base_url : string) (o : output)
    (f : string) : Decision (counted net base_url o f) :=
  (_ : Decision (f ∈ existing o ∨ saved (urlretrieve net (base_url +:+ f)) = true)).

End download_pyodide.

(** A directory that holds [pyodide.js] only, on a network where every
    download fails with [URLError] before a file is opened, and the
    directory [download_pyodide_core] leaves then. *)
Module DownloadSample.
Import download_pyodide.

Definition offline : network := Network (λ _, Some 2000) (λ _, UrlError false).

Definition missing : list string :=
  ["pyodide.asm.js"; "pyodide.asm.data"; "pyodide_asm.wasm";
   "pyodide-lock.json"; "packages.json"; "micropip.py"].

Definition start : output := Output {["pyodide.js"]} None [] [].

Definition finish : output :=
  Output {["pyodide.js"]} None ((λ f, "https://mirror/" +:+ f) <$> missing)
    (parent_of <$> missing).

End DownloadSample.

Module verify_pyodide.

(** [MIN_FILE_SIZES.get(filename, 0)]. *)
Definition MIN_FILE_SIZES : list (string * Z) :=
  [("pyodide.js", 10000); ("pyodide.asm.js", 1000000); ("pyodide.asm.data", 1000000);
   ("pyodide_asm.wasm", 100000); ("pyodide-lock.json", 1000); ("packages.json", 1000);
   ("micropip.py", 10000)].

Fixpoint min_size (table : list (string * Z)) (filename : string) : Z :=
  match table with
  | [] => 0
  | (k, v) :: rest => if String.eqb k filename then v else min_size rest filename
  end.

(** What [json.load] makes of [pyodide-lock.json]:
    [lock_data.get("info", {}).get("version", "")] and
    [len(lock_data.get("packages", {}))]. *)
Record lock_data : Type := LockData {
  lock_version : string;
  lock_packages : nat
}.

(** The Pyodide directory as the script sees it: the size of each file
    that exists in it, what [json.load] makes of [packages.json] and of
    [pyodide-lock.json] ([None] for [JSONDecodeError]), and the names in
    the [packages] directory ([None] when there is no such directory). *)
Record pyodide_dir : Type := PyodideDir {
  st_size : gmap string Z;
  packages_json : option (gmap string pkg_info);
  lock_json : option lock_data;
  packages_dir : option (gset string)
}.

(** The mark printed for a file or a package. *)
Inductive mark : Type := Passed | Warned | Failed.

(** The loop of [verify_core_files], with [all_ok] and [total_size] so
    far; the marks come in the order of the files. *)
Fixpoint core_files_loop (d : pyodide_dir) (files : list string)
    (all_ok : bool) (total_size : Z) : bool * Z * list mark :=
  match files with
  | [] => (all_ok, total_size, [])
  | filename :: rest =>
      match st_size d !! filename with
      | Some size =>
          if size <? min_size MIN_FILE_SIZES filename
          then let '(ok, total, marks) := core_files_loop d rest false (total_size + size) in
               (ok, total, Warned :: marks)
          else let '(ok, total, marks) := core_files_loop d rest all_ok (total_size + size) in
               (ok, total, Passed :: marks)
      | None =>
          let '(ok, total, marks) := core_files_loop d rest false total_size in
          (ok, total, Failed :: marks)
      end
  end.

Definition verify_core_files (d : pyodide_dir) : bool :=
  (core_files_loop d CORE_FILES true 0).1.1.

(** [all_files_exist] for one package: the loop stops at the first file
    that is missing. *)
Fixpoint all_files_exist (present : gset string) (files : list string) : bool :=
  match files with
  | [] => true
  | file_name :: rest =>
      if bool_decide (file_name ∈ present) then all_files_exist present rest else false
  end.

Fixpoint packages_loop (packages : gmap string pkg_info) (present : gset string)
    (names : list string) (all_ok : bool) : bool * list mark :=
  match names with
  | [] => (all_ok, [])
  | pkg_name :: rest =>
      match packages !! pkg_name with
      | Some info =>
          if all_files_exist present (default [] (pkg_files info))
          then let '(ok, marks) := packages_loop packages present rest all_ok in
               (ok, Passed :: marks)
          else let '(ok, marks) := packages_loop packages present rest false in
               (ok, Warned :: marks)
      | None =>
          let '(ok, marks) := packages_loop packages present rest false in
          (ok, Failed :: marks)
      end
  end.

Definition verify_packages (d : pyodide_dir) : bool :=
  match st_size d !! "packages.json" with
  | None => false
  | Some _ =>
      match packages_json d with
      | None => false
      | Some packages =>
          match packages_dir d with
          | None => false
          | Some present => (packages_loop packages present PYTHON_PACKAGES true).1
          end
      end
  end.

(** [verify_lock_file]: the result and whether the version matched. *)
Definition verify_lock_file (d : pyodide_dir) : bool * option bool :=
  match st_size d !! "pyodide-lock.json" with
  | None => (false, None)
  | Some _ =>
      match lock_json d with
      | None => (false, None)
      | Some lock => (true, Some (bool_decide (lock_version lock = PYODIDE_VERSION)))
      end
  end.

Definition print_summary (core_ok packages_ok lock_ok : bool) : Z :=
  if core_ok && packages_ok && lock_ok then 0 else 1.

(** [main], given whether [PYODIDE_DIR] exists: the exit status. *)
Definition main (d : option pyodide_dir) : Z :=
  match d with
  | None => 1
  | Some d =>
      let core_ok := verify_core_files d in
      let lock_ok := (verify_lock_file d).1 in
      let packages_ok := verify_packages d in
      print_summary core_ok packages_ok lock_ok
  end.

(** A file that exists and is not smaller than its minimum. *)
Definition big_enough (d : pyodide_dir) (filename : string) : Prop :=
  ∃ size, st_size d !! filename = Some size ∧ min_size MIN_FILE_SIZES filename ≤ size.

(** The sizes of the files of a list that exist, added up. *)
Definition sizes_sum (d : pyodide_dir) (files : list string) : Z :=
  foldr (λ f acc, default 0 (st_size d !! f) + acc) 0 files.

(** A package of the index whose files are all in the packages directory. *)
Definition complete (packages : gmap string pkg_info) (present : gset string)
    (pkg_name : string) : Prop :=
  ∃ info, packages !! pkg_name = Some info
          ∧ ∀ f, f ∈ default [] (pkg_files info) → f ∈ present.

End verify_pyodide.

(** The calls of a log that write: [save] and [pack_document]. *)
Definition write_calls (log : list call) : list call :=
  omap (λ c, if writes c then Some c else None) log.

(** The message of the [TypeError] that [str.join] raises at item [k]. *)
Definition join_error (k : nat) : error :=
  Error TypeError ("sequence item " +:+ pretty k +:+ ": expected str instance, NoneType found").

(** * Theorems *)

(** Unfolds the sequencing of an operation down to its collaborator calls. *)
Ltac step_op :=
  cbv [mbind M_bind mret M_ret bind ret invoke do_unpack do_pack
       word_ops.find_paragraph];
  cbn [fst snd disk calls].

(** Splits on the outcome of every collaborator call met on the way. *)
Ltac split_outcomes :=
  repeat match goal with
         | |- context [match ?o with Returns _ => _ | Raises _ => _ end] =>
             destruct o eqn:?; cbn [fst snd disk calls]
         | |- context [let '(_, _) := ?p in _] => destruct p; cbn [fst snd disk calls]
         | |- context [match ?o with Some _ => _ | None => _ end] =>
             destruct o eqn:?; cbn [fst snd disk calls]
         end.

Lemma not_found_is_failure (location : Z) : is_failure (word_ops.not_found location).
Proof. split; [reflexivity | eexists; reflexivity]. Qed.

Section LookupFailure.
Context `{C : Collaborators}.
Variables (w : world) (docx_path : string) (location : Z) (author : string).
Variables (unpack_dir : directory) (doc doc' : registry) (dom : document).
Hypothesis unpacked : unpack_document (disk w !! docx_path) = Returns unpack_dir.
Hypothesis opened : Document unpack_dir (Some author) None = Returns doc.
Hypothesis loaded : Document_get doc word_ops.document_xml = Returns (doc', dom).
Hypothesis no_line : get_node doc' word_ops.document_xml "w:p" location = Returns None.
Hypothesis no_index : word_ops.paragraph_by_index dom location = None.

Ltac lookup_fails :=
  step_op; rewrite unpacked, opened, loaded, no_line, no_index; cbn;
  eexists _, _; split; [reflexivity|]; split; [apply not_found_is_failure|];
  split; [reflexivity|]; split; [rewrite <- !app_assoc; reflexivity|];
  repeat constructor.

Lemma add_comment_not_found (text : string) :
  fails_cleanly w (word_ops.add_comment docx_path location text author w).
Proof. unfold word_ops.add_comment. lookup_fails. Qed.

Lemma suggest_insertion_not_found (text : string) :
  fails_cleanly w (word_ops.suggest_insertion docx_path location text author w).
Proof. unfold word_ops.suggest_insertion. lookup_fails. Qed.

Lemma suggest_deletion_not_found :
  fails_cleanly w (word_ops.suggest_deletion docx_path location author w).
Proof. unfold word_ops.suggest_deletion. lookup_fails. Qed.

End LookupFailure.

(** C1.  When the archive unpacks, the registry opens and the body part
    loads, but neither the line lookup nor the index lookup finds a
    paragraph at [location], each of [add_comment], [suggest_insertion] and
    [suggest_deletion] returns a result with [success = false] and an
    [error] string, calls neither [save] nor [pack_document], and leaves
    every file, the archive at [docx_path] among them, as it was. *)
Theorem lookup_failure_leaves_archive_untouched `{C : Collaborators}
    (w : world) (docx_path : string) (location : Z) (text author : string)
    (unpack_dir : directory) (doc doc' : registry) (dom : document) :
  unpack_document (disk w !! docx_path) = Returns unpack_dir →
  Document unpack_dir (Some author) None = Returns doc →
  Document_get doc word_ops.document_xml = Returns (doc', dom) →
  get_node doc' word_ops.document_xml "w:p" location = Returns None →
  word_ops.paragraph_by_index dom location = None →
  fails_cleanly w (word_ops.add_comment docx_path location text author w)
  ∧ fails_cleanly w (word_ops.suggest_insertion docx_path location text author w)
  ∧ fails_cleanly w (word_ops.suggest_deletion docx_path location author w)
  ∧ disk (word_ops.add_comment docx_path location text author w).2 !! docx_path
    = disk w !! docx_path.
Proof.
  intros Hu Hd Hg Hn Hi. split; [|split; [|split]].
  - eapply add_comment_not_found; eassumption.
  - eapply suggest_insertion_not_found; eassumption.
  - eapply suggest_deletion_not_found; eassumption.
  - destruct (add_comment_not_found w docx_path location author _ _ _ _
                Hu Hd Hg Hn Hi text) as (r & new & _ & _ & Hdisk & _).
    by rewrite Hdisk.
Qed.

Lemma lookup_failure_leaves_archive_untouched_witness :
  let C := SpecModel.collaborators Sample.by_index in
  let w := Sample.start Sample.by_index in
  fails_cleanly w (word_ops.add_comment "a.docx" 3 "Check this" "Ann" w)
  ∧ fails_cleanly w (word_ops.suggest_insertion "a.docx" 3 "Check this" "Ann" w)
  ∧ fails_cleanly w (word_ops.suggest_deletion "a.docx" 3 "Ann" w)
  ∧ disk (word_ops.add_comment "a.docx" 3 "Check this" "Ann" w).2 !! "a.docx"
    = disk w !! "a.docx".
Proof.
  intros C w.
  eapply (@lookup_failure_leaves_archive_untouched C w "a.docx" 3 "Check this" "Ann");
    reflexivity.
Defined.

(** What [word_cli] does with an exception: the handler turns it into a
    structured failure. *)
Lemma read_document_reports_open_failure `{C : Collaborators} (dir : directory) (e : error) :
  Document dir None None = Raises e →
  word_cli.read_document dir = word_cli.failure e ∧ is_failure (word_cli.failure e).
Proof.
  intros H. unfold word_cli.read_document. rewrite H.
  split; [reflexivity|]. split; [reflexivity | eexists; reflexivity].
Qed.

Lemma read_document_success_or_failure `{C : Collaborators} (dir : directory) :
  is_failure (word_cli.read_document dir)
  ∨ dict_get (word_cli.read_document dir) "success" = Some (JBool true).
Proof.
  unfold word_cli.read_document.
  destruct (Document dir None None) as [doc|e];
    [|left; split; [reflexivity | eexists; reflexivity]].
  destruct (Document_get doc "word/document.xml") as [[doc' dom]|e];
    [|left; split; [reflexivity | eexists; reflexivity]].
  destruct (word_cli.collect _ _) as [content|e];
    [right; reflexivity | left; split; [reflexivity | eexists; reflexivity]].
Qed.

(** C2.  In [word_ops] nothing catches what [unpack_document] raises: for
    each of the five commands, an exception raised while unpacking ends the
    process with a traceback and no result object is printed. *)
Theorem unpack_failure_escapes `{C : Collaborators}
    (rnd : Z) (a : word_ops.args) (w : world) (e : error) :
  unpack_document (disk w !! docx_path_of a) = Raises e →
  (word_ops.run rnd a w).1 = Raises e
  ∧ (word_ops.main rnd (Some a) w).1 = word_ops.Traceback e.
Proof.
  intros H. unfold word_ops.main.
  assert ((word_ops.run rnd a w).1 = Raises e) as Hrun.
  { destruct a; cbn [docx_path_of] in H; cbn [word_ops.run];
      [unfold word_ops.add_comment | unfold word_ops.enable_tracking
      | unfold word_ops.suggest_insertion | unfold word_ops.suggest_deletion
      | unfold word_ops.validate_document];
      step_op; rewrite H; reflexivity. }
  split; [exact Hrun|].
  destruct (word_ops.run rnd a w) as [[r|e'] w']; cbn in *; congruence.
Qed.

Lemma unpack_failure_escapes_witness :
  let C := SpecModel.collaborators Sample.by_index in
  let w := Sample.start Sample.by_index in
  let e := Error ArchiveCorrupt "File is not a zip file" in
  (word_ops.run 0 (word_ops.Args_add_comment "bad.docx" 0 "Check this" "Ann") w).1
  = Raises e
  ∧ (word_ops.main 0
       (Some (word_ops.Args_add_comment "bad.docx" 0 "Check this" "Ann")) w).1
    = word_ops.Traceback e.
Proof.
  intros C w e.
  apply (@unpack_failure_escapes C 0
           (word_ops.Args_add_comment "bad.docx" 0 "Check this" "Ann") w e).
  reflexivity.
Defined.

(** The same for a body part that does not parse: [MalformedXml] leaves
    [add_comment] as an exception. *)
Lemma parse_failure_escapes `{C : Collaborators}
    (w : world) (docx_path : string) (location : Z) (text author : string)
    (unpack_dir : directory) (doc : registry) (e : error) :
  unpack_document (disk w !! docx_path) = Returns unpack_dir →
  Document unpack_dir (Some author) None = Returns doc →
  Document_get doc word_ops.document_xml = Raises e →
  (word_ops.add_comment docx_path location text author w).1 = Raises e.
Proof.
  intros Hu Hd Hg. unfold word_ops.add_comment. step_op.
  rewrite Hu, Hd, Hg. reflexivity.
Qed.

(** C6, as stated, fails on [word_cli.validate_document]: a directory that
    holds both mandatory files, the body part not parsing, is reported
    valid with no error. *)
Lemma validate_accepts_unparsable_body :
  let C := SpecModel.collaborators Sample.by_index in
  let broken := [TOpen "w:document" []; TOpen "w:body" []] in
  let dir : gmap string (list token) :=
    {[ SpecModel.body_part := broken; SpecModel.content_types := Sample.types ]} in
  parse broken = None
  ∧ dict_get (word_cli.validate_document (C := C) dir) "valid" = Some (JBool true)
  ∧ dict_get (word_cli.validate_document (C := C) dir) "errors" = Some (JList []).
Proof. repeat split. Qed.

(** C6, amended.  [word_cli.validate_document] checks that the registry
    opens and that both mandatory files exist, and nothing else: the result
    has [valid = false] exactly when [Document] raises or a mandatory file
    is missing, and then [errors] holds one message; otherwise [valid] is
    [true] and [errors] is empty, whatever the files contain. *)
Theorem validate_checks_presence_only `{C : Collaborators} (dir : directory) :
  let r := word_cli.validate_document dir in
  (dict_get r "valid" = Some (JBool false)
   ↔ (∃ e, Document dir None None = Raises e) ∨ some_missing dir)
  ∧ (dict_get r "valid" = Some (JBool false) →
     ∃ msg, dict_get r "errors" = Some (JList [JStr msg]))
  ∧ (dict_get r "valid" ≠ Some (JBool false) →
     dict_get r "valid" = Some (JBool true) ∧ dict_get r "errors" = Some (JList [])).
Proof.
  cbn zeta. unfold word_cli.validate_document, some_missing, word_cli.required_files.
  destruct (Document dir None None) as [doc|e].
  2:{ split; [|split].
      - split; [intros _; left; eauto | reflexivity].
      - intros _. eexists. reflexivity.
      - intros Hne. by destruct Hne. }
  assert (∀ P : Prop, ((∃ e, Returns doc = Raises (A := registry) e) ∨ P) ↔ P) as Hor.
  { intros P. split; [intros [[e He]|HP]; [discriminate | exact HP] | by right]. }
  rewrite Hor. clear Hor. rewrite !filter_cons, filter_nil.
  destruct (path_exists dir "word/document.xml") eqn:E1,
           (path_exists dir "[Content_Types].xml") eqn:E2;
    repeat case_decide; try congruence; cbn.
  - split; [|split].
    + split; [discriminate|]. intros (file & Hin & Hfile).
      set_unfold. destruct Hin as [->|[->|[]]]; congruence.
    + discriminate.
    + done.
  - split; [|split].
    + split; [|reflexivity]. intros _. exists "[Content_Types].xml".
      split; [set_solver | done].
    + intros _. eexists. reflexivity.
    + intros Hne. by destruct Hne.
  - split; [|split].
    + split; [|reflexivity]. intros _. exists "word/document.xml".
      split; [set_solver | done].
    + intros _. eexists. reflexivity.
    + intros Hne. by destruct Hne.
  - split; [|split].
    + split; [|reflexivity]. intros _. exists "word/document.xml".
      split; [set_solver | done].
    + intros _. eexists. reflexivity.
    + intros Hne. by destruct Hne.
Qed.

(** X3.  What [word_ops.validate_document] returns carries all four
    fields: [valid] and [success] hold the same boolean, [errors] and
    [warnings] are lists of strings. *)
Lemma word_ops_validate_fields `{C : Collaborators} (docx_path : string) (w : world)
    (r : result) :
  (word_ops.validate_document docx_path w).1 = Returns r →
  (∃ b, dict_get r "valid" = Some (JBool b) ∧ dict_get r "success" = Some (JBool b))
  ∧ string_list_field r "errors" ∧ string_list_field r "warnings".
Proof.
  unfold word_ops.validate_document. step_op.
  destruct (unpack_document _) as [dir|e]; cbn; [|discriminate].
  destruct (DOCXSchemaValidator_validate dir) as [v|e]; cbn; [|discriminate].
  intros [= <-]. split; [eexists; split; reflexivity|].
  split; eexists; reflexivity.
Qed.

(** C7.  The results [word_cli.validate_document] builds for an invalid
    directory have no [warnings] field: the field is there exactly when the
    directory is found valid. *)
Theorem invalid_result_lacks_warnings `{C : Collaborators} (dir : directory) :
  dict_get (word_cli.validate_document dir) "valid" = Some (JBool false) →
  dict_get (word_cli.validate_document dir) "warnings" = None
  ∧ string_list_field (word_cli.validate_document dir) "errors".
Proof.
  unfold word_cli.validate_document.
  destruct (Document dir None None) as [doc|e].
  - destruct (filter _ _) as [|file rest]; cbn; [discriminate|].
    intros _. split; [reflexivity|]. eexists [_]. reflexivity.
  - intros _. split; [reflexivity|]. eexists [_]. reflexivity.
Qed.

Lemma invalid_result_lacks_warnings_witness :
  let C := SpecModel.collaborators Sample.by_index in
  let dir : gmap string (list token) := {[ SpecModel.content_types := Sample.types ]} in
  dict_get (word_cli.validate_document (C := C) dir) "warnings" = None
  ∧ string_list_field (word_cli.validate_document (C := C) dir) "errors".
Proof.
  intros C dir. apply (@invalid_result_lacks_warnings C dir). reflexivity.
Defined.

(** What [word_ops.main] does with a result: the status is 1 when [success]
    is [false] and 0 when it is [true]. *)
Lemma run_success_is_bool `{C : Collaborators} (rnd : Z) (a : word_ops.args) (w : world)
    (r : result) :
  (word_ops.run rnd a w).1 = Returns r →
  ∃ b rest, r = ("success", JBool b) :: rest.
Proof.
  destruct a; cbn [word_ops.run];
    [unfold word_ops.add_comment | unfold word_ops.enable_tracking
    | unfold word_ops.suggest_insertion | unfold word_ops.suggest_deletion
    | unfold word_ops.validate_document];
    step_op; split_outcomes; cbn; intros [= <-]; eexists _, _; reflexivity.
Qed.

(** X2.  When [word_ops.main] prints a result, the exit status is 1
    exactly when its [success] is [false] and 0 exactly when it is
    [true]. *)
Lemma word_ops_main_exit_status `{C : Collaborators} (rnd : Z) (a : word_ops.args)
    (w : world) (r : result) (status : Z) :
  (word_ops.main rnd (Some a) w).1 = word_ops.Exit [r] status →
  (status ≠ 0 ↔ dict_get r "success" = Some (JBool false))
  ∧ (status = 0 ↔ dict_get r "success" = Some (JBool true)).
Proof.
  unfold word_ops.main.
  destruct (word_ops.run rnd a w) as [[r'|e] w'] eqn:Hrun; cbn; [|discriminate].
  intros [= -> <-].
  destruct (run_success_is_bool rnd a w r) as (b & rest & ->); [by rewrite Hrun|].
  destruct b; cbn; split; split; (congruence || lia || done).
Qed.

(** C8.  [word_cli.main] prints the result and returns: the exit status is
    0 also when the printed result has [success = false], as for a read of
    a directory without a body part. *)
Theorem word_cli_main_exits_zero `{C : Collaborators} (cmd : word_cli.command)
    (dir : directory) :
  word_ops.exit_status (word_cli.main cmd dir) = 0
  ∧ (let C := SpecModel.collaborators Sample.by_index in
     ∃ r, word_cli.main (C := C) word_cli.Read ∅ = word_ops.Exit [r] 0
          ∧ dict_get r "success" = Some (JBool false)).
Proof.
  split; [by destruct cmd|]. eexists. split; reflexivity.
Qed.

(** ** Document order of [getElementsByTagName] *)

Lemma node_nested_ind (P : node → Prop) :
  (∀ t a kids, Forall P kids → P (Element t a kids)) →
  (∀ s, P (Text s)) →
  ∀ n, P n.
Proof.
  intros HE HT. fix IH 1. intros [t a kids|s]; [|apply HT].
  apply HE. induction kids as [|k kids IHk]; constructor; [apply IH | apply IHk].
Qed.

Lemma helper_elements_from (name : string) (n : node) :
  get_elements_by_tagName_helper name n = elements_from name 0 (kids_of n).
Proof.
  destruct n as [t a kids|s]; [|reflexivity]. cbn.
  generalize 0%nat. induction kids as [|k kids IH]; intros i; [reflexivity|].
  cbn. by rewrite IH.
Qed.

Lemma resolve_in_cons (cs : list node) (k : nat) (h : handle) :
  resolve_in cs (k :: h)
  = c ← cs !! k; match h with [] => Some c | _ :: _ => resolve_in (kids_of c) h end.
Proof.
  cbn. destruct (cs !! k) as [c|]; [|reflexivity]. cbn.
  destruct h as [|j h]; [reflexivity|]. destruct c as [t a kids|s]; [reflexivity|].
  reflexivity.
Qed.

Lemma listed_cons (name : string) (c : node) (rest : list node) :
  listed name (kids_of c) → listed name rest → listed name (c :: rest).
Proof.
  intros Hc Hrest i h m. cbn [elements_from].
  rewrite !elem_of_app, list_elem_of_fmap, helper_elements_from. split.
  - intros [H|[H|H]].
    + destruct (tag_matches name c) eqn:Hm; [|by apply elem_of_nil in H].
      apply list_elem_of_singleton in H as [= -> ->].
      exists 0%nat, []. rewrite Nat.add_0_r. done.
    + destruct H as ([h0 m0] & [= -> ->] & Hin).
      apply (Hc 0%nat) in Hin as (k & h' & -> & Hres & Hm).
      exists 0%nat, ((0 + k)%nat :: h'). rewrite Nat.add_0_r.
      split; [done|]. split; [|done]. by rewrite resolve_in_cons.
    + apply Hrest in H as (k & h' & -> & Hres & Hm).
      exists (S k), h'. split; [f_equal; lia|]. split; [|done].
      rewrite resolve_in_cons in Hres |- *. done.
  - intros (k & h' & -> & Hres & Hm). rewrite resolve_in_cons in Hres.
    destruct k as [|k]; cbn in Hres.
    + rewrite Nat.add_0_r. destruct h' as [|j h'].
      * injection Hres as ->. left. rewrite Hm. by apply list_elem_of_singleton.
      * right; left. exists (j :: h', m). split; [done|].
        apply (Hc 0%nat). exists j, h'. done.
    + right; right. apply Hrest. exists k, h'.
      split; [f_equal; lia|]. split; [|done]. by rewrite resolve_in_cons.
Qed.

Lemma listed_all (name : string) (cs : list node) : listed name cs.
Proof.
  assert (∀ n, listed name (kids_of n)) as Hn.
  { induction n as [t a kids IH|s] using node_nested_ind; cbn.
    - induction IH as [|c rest Hc _ IHrest]; [|by apply listed_cons].
      intros i h m. cbn. split; [by intros ?%elem_of_nil|].
      intros (k & h' & _ & Hres & _). discriminate Hres.
    - intros i h m. cbn. split; [by intros ?%elem_of_nil|].
      intros (k & h' & _ & Hres & _). discriminate Hres. }
  apply (Hn (Element "" [] cs)).
Qed.

Lemma elements_from_resolve (name : string) (d : document) (h : handle) (m : node) :
  (h, m) ∈ Document_getElementsByTagName name d
  ↔ resolve d h = Some m ∧ tag_matches name m = true.
Proof.
  unfold Document_getElementsByTagName, resolve. rewrite (listed_all name _ 0%nat). split.
  - intros (k & h' & -> & Hres & Hm). done.
  - intros [Hres Hm]. destruct h as [|k h']; [discriminate|]. by exists k, h'.
Qed.



Lemma handle_lt_irrefl (h : handle) : ¬ handle_lt h h.
Proof.
  unfold handle_lt. induction h as [|i h IH]; cbn [handle_ltb]; [done|].
  by rewrite Nat.ltb_irrefl.
Qed.



Lemma tag_matches_paragraph (p : node) :
  tag_matches "w:p" p = true ↔ ∃ a kids, p = Element "w:p" a kids.
Proof.
  destruct p as [t a kids|s]; cbn.
  - rewrite orb_false_l, bool_decide_eq_true. split; [intros ->; eauto|].
    by intros (a' & kids' & [= -> _ _]).
  - split; [done|]. by intros (a' & kids' & ?).
Qed.





(** ** Text and its encoding *)

Lemma byte_chr (b : Z) : 0 ≤ b < 256 → byte (chr b) = b.
Proof.
  intros Hb. unfold byte, chr. rewrite Ascii.N_ascii_embedding; [lia|].
  lia.
Qed.

Lemma string_app_cons (a : ascii) (r s : string) : String a r +:+ s = String a (r +:+ s).
Proof. reflexivity. Qed.

Lemma string_app_empty (s : string) : "" +:+ s = s.
Proof. reflexivity. Qed.

Lemma code_points_utf8 (c : Z) (s : string) :
  scalar c → code_points (utf8 c +:+ s) = c :: code_points s.
Proof.
  intros Hc. unfold utf8.
  destruct (Z.ltb_spec c 0x80).
  { rewrite ?string_app_cons, string_app_empty; cbn [code_points]. rewrite byte_chr by (destruct Hc; lia).
    destruct (Z.ltb_spec c 0x80); [done|lia]. }
  destruct (Z.ltb_spec c 0x800).
  { rewrite ?string_app_cons, string_app_empty; cbn [code_points]. unfold low6.
    rewrite !byte_chr by (Z.div_mod_to_equations; lia).
    destruct (Z.ltb_spec (0xC0 + c / 64) 0x80); [Z.div_mod_to_equations; lia|].
    destruct (Z.ltb_spec (0xC0 + c / 64) 0xE0); [|Z.div_mod_to_equations; lia].
    f_equal. Z.div_mod_to_equations; lia. }
  destruct (Z.ltb_spec c 0x10000).
  { rewrite ?string_app_cons, string_app_empty; cbn [code_points]. unfold low6.
    rewrite !byte_chr by (Z.div_mod_to_equations; lia).
    destruct (Z.ltb_spec (0xE0 + c / 4096) 0x80); [Z.div_mod_to_equations; lia|].
    destruct (Z.ltb_spec (0xE0 + c / 4096) 0xE0); [Z.div_mod_to_equations; lia|].
    destruct (Z.ltb_spec (0xE0 + c / 4096) 0xF0); [|Z.div_mod_to_equations; lia].
    f_equal. Z.div_mod_to_equations; lia. }
  rewrite ?string_app_cons, string_app_empty; cbn [code_points]. unfold low6.
  rewrite !byte_chr by (destruct Hc; Z.div_mod_to_equations; lia).
  destruct (Z.ltb_spec (0xF0 + c / 262144) 0x80); [Z.div_mod_to_equations; lia|].
  destruct (Z.ltb_spec (0xF0 + c / 262144) 0xE0); [Z.div_mod_to_equations; lia|].
  destruct (Z.ltb_spec (0xF0 + c / 262144) 0xF0); [Z.div_mod_to_equations; lia|].
  f_equal. destruct Hc; Z.div_mod_to_equations; lia.
Qed.

(** Decoding undoes encoding. *)
Lemma code_points_encode (cs : list Z) : Forall scalar cs → code_points (encode cs) = cs.
Proof.
  induction 1 as [|c cs Hc _ IH]; [done|].
  cbn [encode foldr]. rewrite code_points_utf8 by done. f_equal. exact IH.
Qed.

(** [strip] removes the ideographic space U+3000 and the no-break space
    U+00A0, and keeps a final U+00E0, whose encoding ends in the byte A0. *)
Example strip_unicode :
  strip " Gamma " = "Gamma"
  ∧ strip (String "227" (String "128" (String "128" (String "x" (String "194" (String "160" ""))))))
    = "x"
  ∧ strip (String "x" (String "195" (String "160" ""))) = String "x" (String "195" (String "160" "")).
Proof. repeat split. Qed.

(** ** [read_document] *)

Lemma join_items_text (nodes : list node) (k : nat) :
  forallb (λ n, match firstChild n with
                | Some (Element _ _ _) => false
                | _ => true
                end) nodes = true →
  word_cli.join_items k (word_cli.first_values nodes)
  = Returns (join (omap (λ n, firstChild n ≫= nodeValue) nodes)).
Proof.
  revert k. induction nodes as [|n nodes IH]; intros k; [reflexivity|].
  cbn [forallb]. intros [Hn Hrest]%andb_true_iff.
  unfold word_cli.first_values in *. cbn [omap list_omap].
  destruct (firstChild n) as [[t a kids|s]|]; cbn; [done| |by apply IH].
  by rewrite (IH (S k) Hrest).
Qed.

Lemma paragraph_text_ok (p : node) :
  text_runs_ok p = true → word_cli.paragraph_text p = Returns (w_t_text p).
Proof. intros H. by apply join_items_text. Qed.

Lemma collect_visible (paragraphs : list node) (i : Z) :
  forallb text_runs_ok paragraphs = true →
  word_cli.collect i paragraphs = Returns (visible_from i paragraphs).
Proof.
  revert i. induction paragraphs as [|p rest IH]; intros i; [reflexivity|].
  cbn [forallb]. intros [Hp Hrest]%andb_true_iff.
  cbn [word_cli.collect visible_from].
  rewrite (paragraph_text_ok p Hp), (IH (i + 1) Hrest). unfold str_truthy.
  by case_bool_decide.
Qed.

Lemma visible_from_spec (paragraphs : list node) (j i : Z) (t : string) :
  (i, t) ∈ visible_from j paragraphs
  ↔ j ≤ i ∧ ∃ p, paragraphs !! Z.to_nat (i - j) = Some p
                 ∧ t = strip (w_t_text p) ∧ t ≠ "".
Proof.
  revert j. induction paragraphs as [|p rest IH]; intros j; cbn [visible_from].
  - split; [by intros ?%elem_of_nil | by intros (_ & p & ? & _)].
  - assert ((i, t) ∈ visible_from (j + 1) rest
            ↔ j < i ∧ ∃ q, (p :: rest) !! Z.to_nat (i - j) = Some q
                           ∧ t = strip (w_t_text q) ∧ t ≠ "") as Hrest.
    { rewrite IH. split.
      - intros (Hle & q & Hq & Ht). split; [lia|]. exists q. split; [|done].
        replace (Z.to_nat (i - j)) with (S (Z.to_nat (i - (j + 1)))) by lia. done.
      - intros (Hlt & q & Hq & Ht). split; [lia|]. exists q. split; [|done].
        replace (Z.to_nat (i - j)) with (S (Z.to_nat (i - (j + 1)))) in Hq by lia. done. }
    case_bool_decide as Hempty.
    + rewrite Hrest. split; [intros [? ?]; split; [lia|done]|].
      intros (Hle & q & Hq & Ht & Hne). destruct (decide (j < i)); [by eauto 10|].
      assert (i = j) as -> by lia. rewrite Z.sub_diag in Hq. injection Hq as <-.
      congruence.
    + rewrite elem_of_cons, Hrest. split.
      * intros [[= -> ->]|[Hlt Hex]]; [|split; [lia|done]].
        split; [lia|]. exists p. by rewrite Z.sub_diag.
      * intros (Hle & Hex). destruct (decide (j < i)); [by right|left].
        assert (i = j) as -> by lia. destruct Hex as (q & Hq & -> & _).
        rewrite Z.sub_diag in Hq. by injection Hq as <-.
Qed.

Lemma visible_from_sorted (paragraphs : list node) (j : Z) :
  StronglySorted Z.lt (visible_from j paragraphs).*1.
Proof.
  revert j. induction paragraphs as [|p rest IH]; intros j; cbn [visible_from];
    [constructor|].
  case_bool_decide; [apply IH|]. cbn. constructor; [apply IH|].
  apply Forall_forall. intros i Hi.
  apply list_elem_of_fmap in Hi as ([i' t] & -> & Hin).
  apply visible_from_spec in Hin. cbn. lia.
Qed.

Lemma string_app_empty_r (s : string) : s +:+ "" = s.
Proof.
  induction s as [|c s IHs]; [reflexivity|].
  change (String c (s +:+ "") = String c s). by rewrite IHs.
Qed.

Lemma plain_runs_text (p : node) :
  plain_runs p = true → text_runs_ok p = true ∧ w_t_text p = concatenated_text p.
Proof.
  unfold plain_runs, text_runs_ok, w_t_text, concatenated_text.
  induction (getElementsByTagName "w:t" p) as [|n nodes IH]; [done|].
  cbn [forallb]. intros [Hn Hrest]%andb_true_iff.
  destruct (IH Hrest) as [IH1 IH2].
  destruct n as [t a [|[t' a' k'|s] [|c2 rest]]|s]; try done;
    (split; [done|]); cbn; unfold join in IH2; rewrite IH2, ?string_app_empty_r;
    reflexivity.
Qed.

Lemma join_items_raises (nodes : list node) (k : nat) :
  forallb (λ n, match firstChild n with
                | Some (Element _ _ _) => false
                | _ => true
                end) nodes = false →
  ∃ j, word_cli.join_items k (word_cli.first_values nodes) = Raises (join_error j).
Proof.
  revert k. induction nodes as [|n nodes IH]; intros k; [done|].
  cbn [forallb]. unfold word_cli.first_values in *. cbn [omap list_omap].
  destruct (firstChild n) as [[t a kids|s]|]; cbn.
  - intros _. by exists k.
  - intros Hrest. destruct (IH (S k) Hrest) as [j ->]. by exists j.
  - apply IH.
Qed.

Lemma collect_raises (paragraphs : list node) (i : Z) :
  forallb text_runs_ok paragraphs = false →
  ∃ j, word_cli.collect i paragraphs = Raises (join_error j).
Proof.
  revert i. induction paragraphs as [|p rest IH]; intros i; [done|].
  cbn [forallb word_cli.collect]. destruct (text_runs_ok p) eqn:Hp.
  - rewrite (paragraph_text_ok p Hp). cbn [andb]. intros Hrest.
    destruct (IH (i + 1) Hrest) as [j ->]. by exists j.
  - intros _. destruct (join_items_raises _ 0%nat Hp) as [j Hj].
    unfold word_cli.paragraph_text. rewrite Hj. by exists j.
Qed.

(** What [read_document] reports when every non-empty [w:t] starts with
    character data: the first-child text of each paragraph, stripped, where
    that is not empty. *)
Lemma read_document_first_children `{C : Collaborators}
    (dir : directory) (doc doc' : registry) (dom : document) :
  Document dir None None = Returns doc →
  Document_get doc "word/document.xml" = Returns (doc', dom) →
  forallb text_runs_ok (Document_getElementsByTagName "w:p" dom).*2 = true →
  word_cli.read_document dir
  = [("success", JBool true);
     ("content",
      JList (word_cli.entry
               <$> visible_from 0 (Document_getElementsByTagName "w:p" dom).*2))]
  ∧ (∀ i t,
       (i, t) ∈ visible_from 0 (Document_getElementsByTagName "w:p" dom).*2
       ↔ 0 ≤ i ∧ ∃ p, (Document_getElementsByTagName "w:p" dom).*2 !! Z.to_nat i = Some p
                      ∧ t = strip (w_t_text p) ∧ t ≠ "")
  ∧ StronglySorted Z.lt (visible_from 0 (Document_getElementsByTagName "w:p" dom).*2).*1.
Proof.
  intros Hopen Hget Hok. split; [|split].
  - unfold word_cli.read_document. rewrite Hopen, Hget.
    by rewrite (collect_visible _ 0 Hok).
  - intros i t. rewrite visible_from_spec. by rewrite Z.sub_0_r.
  - apply visible_from_sorted.
Qed.


(** C10, as stated, fails on [word_cli.read_document]: of a [w:t] whose
    character data is interrupted by an element only the first child is
    read, so the entry of the paragraph holds less than its concatenated
    [w:t] text. *)
Lemma read_document_reads_first_child_only :
  let C := SpecModel.collaborators Sample.by_index in
  let p :=
    Element "w:p" []
      [Element "w:r" []
         [Element "w:t" [] [Text "Hello"; Element "w:br" [] []; Text "world"]]] in
  let dom := Document_node "w:document" [] [Element "w:body" [] [p]] in
  let dir : gmap string (list token) :=
    {[ SpecModel.body_part := serialize dom;
       SpecModel.content_types := Sample.types ]} in
  (Document_getElementsByTagName "w:p" dom).*2 = [p]
  ∧ strip (concatenated_text p) = "Helloworld"
  ∧ word_cli.read_document (C := C) dir
    = [("success", JBool true);
       ("content", JList [word_cli.entry (0, "Hello")])].
Proof. repeat split. Qed.

(** C10, amended.  What [read_document] returns, for every directory.  When
    the registry does not open or the body part does not load, the failure
    with the message of the exception.  Otherwise, with the [w:p] elements
    of the body in document order: when some [w:t] below one of them starts
    with an element, the failure of [str.join]; when none does, a success
    whose [content] holds one entry for exactly the paragraphs whose text,
    stripped of Unicode whitespace, is not empty, the text of a paragraph
    being the character data of the first child of each of its [w:t]
    elements, concatenated.  The entry carries the zero-based position of
    the paragraph among all [w:p] elements and the stripped text, so the
    indices increase strictly and may skip values.  Where every [w:t] is
    empty or holds one run of character data, that text is the concatenated
    [w:t] text. *)
Theorem read_document_lists_visible_paragraphs `{C : Collaborators} (dir : directory) :
  (∀ e, Document dir None None = Raises e →
        word_cli.read_document dir = word_cli.failure e)
  ∧ (∀ doc e, Document dir None None = Returns doc →
              Document_get doc "word/document.xml" = Raises e →
              word_cli.read_document dir = word_cli.failure e)
  ∧ (∀ doc doc' dom,
       Document dir None None = Returns doc →
       Document_get doc "word/document.xml" = Returns (doc', dom) →
       let paragraphs := (Document_getElementsByTagName "w:p" dom).*2 in
       (forallb text_runs_ok paragraphs = false →
        ∃ j, word_cli.read_document dir = word_cli.failure (join_error j))
       ∧ (forallb text_runs_ok paragraphs = true →
          ∃ content,
            word_cli.read_document dir
            = [("success", JBool true); ("content", JList (word_cli.entry <$> content))]
            ∧ (∀ i t,
                 (i, t) ∈ content
                 ↔ 0 ≤ i ∧ ∃ p, paragraphs !! Z.to_nat i = Some p
                                ∧ t = strip (w_t_text p) ∧ t ≠ "")
            ∧ StronglySorted Z.lt content.*1))
  ∧ (∀ p, plain_runs p = true →
          text_runs_ok p = true ∧ w_t_text p = concatenated_text p).
Proof.
  split; [|split; [|split]].
  - intros e Hopen. unfold word_cli.read_document. by rewrite Hopen.
  - intros doc e Hopen Hget. unfold word_cli.read_document. by rewrite Hopen, Hget.
  - intros doc doc' dom Hopen Hget paragraphs. split.
    + intros Hbad. unfold word_cli.read_document. rewrite Hopen, Hget.
      fold paragraphs. destruct (collect_raises paragraphs 0 Hbad) as [j ->].
      by exists j.
    + intros Hok.
      destruct (read_document_first_children dir doc doc' dom Hopen Hget Hok)
        as (Hread & Hmem & Hsorted).
      eexists. split; [exact Hread|]. split; [exact Hmem|exact Hsorted].
  - apply plain_runs_text.
Qed.

(** On the sample, the blank second paragraph is left out and the third
    keeps its index. *)
Example read_document_sample :
  visible_from 0 (Document_getElementsByTagName "w:p" Sample.body).*2
  = [(0, "Alpha"); (2, "Gamma")].
Proof. reflexivity. Qed.

(** A [w:t] that starts with an element makes the read fail. *)
Example read_document_element_in_text :
  let p := Element "w:p" [] [Element "w:t" [] [Element "w:br" [] []]] in
  text_runs_ok p = false
  ∧ word_cli.paragraph_text p
    = Raises (Error TypeError "sequence item 0: expected str instance, NoneType found").
Proof. split; reflexivity. Qed.

(** ** Serializing and parsing *)

Lemma serialize_element (t : string) (a : list (string * string)) (kids : list node) :
  serialize_node (Element t a kids) = TOpen t a :: serialize_nodes kids ++ [TClose t].
Proof.
  reflexivity.
Qed.

Lemma parse_tokens_node (n : node) :
  ∀ rest stack done,
    parse_tokens (serialize_node n ++ rest) stack done
    = parse_tokens rest (add_node n stack done).1 (add_node n stack done).2.
Proof.
  induction n as [t a kids IH|s] using node_nested_ind; intros rest stack done.
  - rewrite serialize_element. cbn [app parse_tokens]. rewrite <- app_assoc.
    assert (∀ acc, parse_tokens (serialize_nodes kids ++ [TClose t] ++ rest)
                     ((t, a, acc) :: stack) done
                   = parse_tokens ([TClose t] ++ rest)
                       ((t, a, reverse kids ++ acc) :: stack) done) as Hkids.
    { induction IH as [|k kids Hk _ IHkids]; intros acc; [reflexivity|].
      unfold serialize_nodes. cbn [mbind list_bind]. rewrite <- app_assoc.
      rewrite Hk. cbn [add_node fst snd]. fold (serialize_nodes kids).
      rewrite IHkids, reverse_cons, <- app_assoc. reflexivity. }
    rewrite Hkids. cbn [app parse_tokens]. rewrite bool_decide_eq_true_2 by done.
    rewrite app_nil_r, reverse_involutive.
    destruct stack as [|[[t2 a2] kids2] up]; reflexivity.
  - cbn. destruct stack as [|[[t2 a2] kids2] up]; reflexivity.
Qed.

Lemma parse_serialize (d : document) : parse (serialize d) = Some d.
Proof.
  unfold parse, serialize.
  rewrite <- (app_nil_r (serialize_node _)), parse_tokens_node. cbn.
  by destruct d.
Qed.

(** ** The session identifier *)

Lemma getAttribute_None (attrs : list (string * string)) (name : string) :
  getAttribute attrs name = None ↔ name ∉ attrs.*1.
Proof.
  induction attrs as [|[k v] attrs IH]; cbn.
  - split; [intros _; apply not_elem_of_nil | done].
  - destruct (String.eqb_spec k name) as [->|Hne].
    + split; [done|]. intros H. destruct H. apply elem_of_cons. by left.
    + rewrite IH, not_elem_of_cons. cbn.
      split; [by intros ?; split; [congruence|] | by intros [_ ?]].
Qed.

Lemma setAttribute_absent (attrs : list (string * string)) (name value : string) :
  getAttribute attrs name = None → setAttribute attrs name value = attrs ++ [(name, value)].
Proof.
  induction attrs as [|[k v] attrs IH]; cbn; [done|].
  destruct (k =? name)%string; [done|]. intros H. by rewrite IH.
Qed.

Lemma getAttribute_set (attrs : list (string * string)) (name value : string) :
  getAttribute (setAttribute attrs name value) name = Some value.
Proof.
  induction attrs as [|[k v] attrs IH]; cbn.
  - by rewrite String.eqb_refl.
  - destruct (k =? name)%string eqn:Hk; cbn; by rewrite Hk.
Qed.

Lemma attribute_count_cons (k v : string) (attrs : list (string * string)) (name : string) :
  attribute_count ((k, v) :: attrs) name
  = ((if decide (k = name) then 1 else 0) + attribute_count attrs name)%nat.
Proof. unfold attribute_count. rewrite filter_cons. cbn [fst]. by case_decide. Qed.

Lemma attribute_count_absent (attrs : list (string * string)) (name : string) :
  name ∉ attrs.*1 → attribute_count attrs name = 0%nat.
Proof.
  induction attrs as [|[k v] attrs IH]; [done|].
  rewrite fmap_cons, attribute_count_cons. intros [Hne Hrest]%not_elem_of_cons.
  cbn [fst] in Hne. rewrite (IH Hrest). by case_decide.
Qed.

Lemma attribute_count_app (l1 l2 : list (string * string)) (name : string) :
  attribute_count (l1 ++ l2) name
  = (attribute_count l1 name + attribute_count l2 name)%nat.
Proof. unfold attribute_count. by rewrite filter_app, length_app. Qed.

Lemma attribute_count_present (attrs : list (string * string)) (name : string) :
  NoDup attrs.*1 → name ∈ attrs.*1 → attribute_count attrs name = 1%nat.
Proof.
  induction attrs as [|[k v] attrs IH]; [by intros _ ?%elem_of_nil|].
  rewrite fmap_cons, attribute_count_cons. cbn [fst].
  intros [Hk Hnd]%NoDup_cons [->|Hin]%elem_of_cons.
  - rewrite (attribute_count_absent attrs k Hk). by case_decide.
  - rewrite (IH Hnd Hin). case_decide; [by subst|done].
Qed.

Lemma ensure_rsid_has (rnd : Z) (d : document) :
  hasAttribute (rootAttributes (word_ops.ensure_rsid rnd d)) "w:rsidRDefault" = true.
Proof.
  unfold word_ops.ensure_rsid.
  destruct (hasAttribute (rootAttributes d) "w:rsidRDefault") eqn:Hhas; cbn; [done|].
  unfold hasAttribute. by rewrite getAttribute_set.
Qed.

Lemma ensure_rsid_again (r1 r2 : Z) (d : document) :
  word_ops.ensure_rsid r2 (word_ops.ensure_rsid r1 d) = word_ops.ensure_rsid r1 d.
Proof.
  unfold word_ops.ensure_rsid at 1. by rewrite ensure_rsid_has.
Qed.

(** What [enable_tracking] does when it returns. *)
Lemma enable_tracking_returns `{C : Collaborators} (rnd : Z)
    (docx_path author initials : string) (w w' : world) (res : result) :
  word_ops.enable_tracking rnd docx_path author initials w = (Returns res, w') →
  ∃ doc dom,
    loads w docx_path (Some author) (Some initials) doc dom
    ∧ writes_back w w' docx_path
        (store_dom doc word_ops.document_xml (word_ops.ensure_rsid rnd dom)).
Proof.
  unfold word_ops.enable_tracking. step_op.
  destruct (unpack_document (disk w !! docx_path)) as [unpack_dir|e] eqn:Hu;
    cbn [fst snd disk calls]; [|done].
  destruct (Document unpack_dir (Some author) (Some initials)) as [doc0|e] eqn:Hd;
    cbn [fst snd disk calls]; [|done].
  destruct (Document_get doc0 word_ops.document_xml) as [[doc dom]|e] eqn:Hg;
    cbn [fst snd disk calls]; [|done].
  destruct (Document_save (store_dom doc word_ops.document_xml
                             (word_ops.ensure_rsid rnd dom))) as [dir|e] eqn:Hs;
    cbn [fst snd disk calls]; [|done].
  destruct (pack_document dir) as [a|e] eqn:Hp; cbn [fst snd disk calls]; [|done].
  intros [= _ <-]. exists doc, dom. split.
  - by exists unpack_dir, doc0.
  - by exists dir, a.
Qed.

Lemma ensure_rsid_attributes (rnd : Z) (d : document) :
  let d1 := word_ops.ensure_rsid rnd d in
  (∃ rsid,
     getAttribute (rootAttributes d1) "w:rsidRDefault" = Some rsid
     ∧ (hasAttribute (rootAttributes d) "w:rsidRDefault" = false → rsid = format_04X rnd)
     ∧ (hasAttribute (rootAttributes d) "w:rsidRDefault" = true →
        getAttribute (rootAttributes d) "w:rsidRDefault" = Some rsid ∧ d1 = d))
  ∧ (NoDup (rootAttributes d).*1 →
     NoDup (rootAttributes d1).*1
     ∧ attribute_count (rootAttributes d1) "w:rsidRDefault" = 1%nat).
Proof.
  cbn zeta. unfold word_ops.ensure_rsid, hasAttribute.
  destruct (getAttribute (rootAttributes d) "w:rsidRDefault") as [v|] eqn:Hget;
    cbn [negb rootAttributes is_Some].
  - split; [exists v; by rewrite Hget|]. intros Hnd. split; [done|].
    apply attribute_count_present; [done|].
    destruct (decide ("w:rsidRDefault" ∈ (rootAttributes d).*1)) as [|Hno]; [done|].
    apply getAttribute_None in Hno. congruence.
  - split; [exists (format_04X rnd); by rewrite getAttribute_set|]. intros Hnd.
    rewrite (setAttribute_absent _ _ _ Hget). apply getAttribute_None in Hget.
    split.
    + rewrite fmap_app. apply NoDup_app. split; [done|]. split; [|apply NoDup_singleton].
      intros x Hx ->%list_elem_of_singleton. done.
    + rewrite attribute_count_app, (attribute_count_absent _ _ Hget).
      rewrite attribute_count_cons. by case_decide.
Qed.

(** C4.  Two calls of [enable_tracking] on the same file, the codec and
    the registry handing back the tree that was saved.  The first call
    loads the body tree, makes sure its root carries the session
    identifier, and writes the archive back; the second call loads that
    tree and writes it back as it is, whatever value its generator draws.
    So the identifier after both calls is the one the document had, or the
    formatted draw of the first call when it had none, and a root whose
    attribute names are distinct carries it exactly once. *)
Theorem enable_tracking_idempotent `{C : Collaborators} (r1 r2 : Z)
    (docx_path author initials : string) (w w1 w2 : world) (res1 res2 : result) :
  reload_contract →
  word_ops.enable_tracking r1 docx_path author initials w = (Returns res1, w1) →
  word_ops.enable_tracking r2 docx_path author initials w1 = (Returns res2, w2) →
  ∃ doc1 dom doc2,
    let d1 := word_ops.ensure_rsid r1 dom in
    loads w docx_path (Some author) (Some initials) doc1 dom
    ∧ writes_back w w1 docx_path (store_dom doc1 word_ops.document_xml d1)
    ∧ loads w1 docx_path (Some author) (Some initials) doc2 d1
    ∧ writes_back w1 w2 docx_path (store_dom doc2 word_ops.document_xml d1)
    ∧ (∃ rsid,
         getAttribute (rootAttributes d1) "w:rsidRDefault" = Some rsid
         ∧ (hasAttribute (rootAttributes dom) "w:rsidRDefault" = false →
            rsid = format_04X r1)
         ∧ (hasAttribute (rootAttributes dom) "w:rsidRDefault" = true →
            getAttribute (rootAttributes dom) "w:rsidRDefault" = Some rsid ∧ d1 = dom))
    ∧ (NoDup (rootAttributes dom).*1 →
       NoDup (rootAttributes d1).*1
       ∧ attribute_count (rootAttributes d1) "w:rsidRDefault" = 1%nat).
Proof.
  intros Hcontract Hrun1 Hrun2.
  destruct (enable_tracking_returns _ _ _ _ _ _ _ Hrun1)
    as (doc1 & dom & Hload1 & Hwrite1).
  destruct (enable_tracking_returns _ _ _ _ _ _ _ Hrun2)
    as (doc2 & dom2 & Hload2 & Hwrite2).
  assert (dom2 = word_ops.ensure_rsid r1 dom) as ->.
  { destruct Hwrite1 as (dir1 & a1 & Hsave & Hpack & Hdisk).
    destruct Hload2 as (dir2 & doc0 & Hunpack & Hopen & Hget).
    rewrite Hdisk, lookup_insert_eq in Hunpack.
    exact (Hcontract _ _ _ _ _ _ _ _ _ _ Hsave Hpack Hunpack Hopen Hget). }
  rewrite ensure_rsid_again in Hwrite2.
  exists doc1, dom, doc2. cbn zeta.
  split; [done|]. split; [done|]. split; [done|]. split; [done|].
  apply ensure_rsid_attributes.
Qed.

(** On the sample the first call writes the drawn value and a second call,
    with another draw, changes nothing. *)
Example enable_tracking_sample :
  rootAttributes (word_ops.ensure_rsid 4660 Sample.body) = [("w:rsidRDefault", "1234")]
  ∧ word_ops.ensure_rsid 43981 (word_ops.ensure_rsid 4660 Sample.body)
    = word_ops.ensure_rsid 4660 Sample.body.
Proof. split; reflexivity. Qed.

(** ** Edits through a handle *)

Lemma resolve_in_splice_single (g : node → node) (h : handle) :
  ∀ cs n, resolve_in cs h = Some n →
          resolve_in (splice_in (λ n, [g n]) h cs) h = Some (g n)
          ∧ length (splice_in (λ n, [g n]) h cs) = length cs.
Proof.
  induction h as [|i h IH]; intros cs n; [done|].
  rewrite resolve_in_cons. cbn [splice_in].
  destruct (cs !! i) as [c|] eqn:Hc; [|done]. cbn [mbind option_bind].
  destruct h as [|j h].
  - intros [= <-]. pose proof (lookup_lt_Some _ _ _ Hc) as Hlt. split.
    + rewrite resolve_in_cons, lookup_app_r, length_take_le by (rewrite ?length_take; lia).
      by rewrite Nat.sub_diag.
    + rewrite !length_app, length_take, length_drop. cbn. lia.
  - destruct c as [t a kids|s]; cbn [kids_of]; [|done]. intros Hres.
    destruct (IH kids n Hres) as [Hr Hl]. split; [|by rewrite length_insert].
    rewrite resolve_in_cons, list_lookup_insert_eq by (by eapply lookup_lt_Some).
    done.
Qed.

Lemma splice_single (g : node → node) (d : document) (h : handle) (n : node) :
  (∀ t a kids, ∃ t' a' kids', g (Element t a kids) = Element t' a' kids') →
  resolve d h = Some n →
  ∃ d', splice (λ n, [g n]) h d = Some d' ∧ resolve d' h = Some (g n).
Proof.
  intros Hg Hres. unfold splice. rewrite Hres. unfold resolve in *.
  destruct (resolve_in_splice_single g h _ n Hres) as [Hr Hl].
  destruct (splice_in (λ n, [g n]) h [documentElement d]) as [|e [|e2 rest]] eqn:Hs;
    [done| |done].
  assert (∃ t a kids, e = Element t a kids) as (t & a & kids & ->).
  { destruct h as [|i h]; [done|]. cbn [splice_in] in Hs.
    destruct i as [|i]; [|done]. cbn in Hs. destruct h as [|j h].
    - injection Hs as <-. apply Hg.
    - injection Hs as <-. eauto. }
  eexists. split; [reflexivity|]. exact Hr.
Qed.

Lemma resolve_ensure_rsid (rnd : Z) (d : document) (h : handle)
    (t : string) (a : list (string * string)) (kids : list node) :
  resolve d h = Some (Element t a kids) →
  ∃ a', resolve (word_ops.ensure_rsid rnd d) h = Some (Element t a' kids)
        ∧ (h ≠ [0%nat] → a' = a).
Proof.
  unfold word_ops.ensure_rsid.
  destruct (negb (hasAttribute (rootAttributes d) "w:rsidRDefault")); [|by eauto].
  unfold resolve, documentElement. cbn [rootTag rootAttributes rootChildren].
  destruct h as [|i h]; [done|]. rewrite !resolve_in_cons.
  destruct i as [|i]; [|done]. cbn. destruct h as [|j h].
  - intros [= <- <- <-]. eexists. split; [reflexivity|]. intros Hne. by destruct Hne.
  - intros Hres. exists a. by split.
Qed.

Lemma text_content_element (t : string) (a : list (string * string)) (kids : list node) :
  text_content (Element t a kids) = join (text_content <$> kids).
Proof.
  cbn [text_content]. induction kids as [|k kids IH]; [reflexivity|].
  cbn. by rewrite IH.
Qed.


Lemma handle_ltb_irrefl (h : handle) : handle_ltb h h = false.
Proof.
  destruct (handle_ltb h h) eqn:E; [|done]. by destruct (handle_lt_irrefl h).
Qed.

Lemma splice_in_bracket (s e : node) (h : handle) :
  ∀ cs n, resolve_in cs h = Some n →
          splice_in (λ n, [s; n]) h (splice_in (λ n, [n; e]) h cs)
          = splice_in (λ n, [s; n; e]) h cs.
Proof.
  induction h as [|i h IH]; intros cs n; [done|].
  rewrite resolve_in_cons. cbn [splice_in].
  destruct (cs !! i) as [c|] eqn:Hc; [|done]. cbn [mbind option_bind].
  pose proof (lookup_lt_Some _ _ _ Hc) as Hlt.
  destruct h as [|j h].
  - intros _.
    assert (i = length (take i cs)) as Hlen by (rewrite length_take; lia).
    assert ((take i cs ++ [c; e] ++ drop (S i) cs) !! i = Some c) as ->.
    { rewrite lookup_app_r by lia. by replace (i - length (take i cs))%nat with 0%nat by lia. }
    rewrite (take_app_length' _ _ i Hlen).
    replace (S i) with (i + 1)%nat at 1 by lia.
    rewrite (drop_app_add' _ _ i 1 Hlen). reflexivity.
  - destruct c as [t a kids|x]; cbn [kids_of]; [|done]. intros Hres.
    rewrite list_lookup_insert_eq by done.
    rewrite list_insert_insert_eq. by rewrite (IH kids n Hres).
Qed.


Lemma splice_bracket (s e : node) (h : handle) (d body : document) :
  splice (λ n, [n; e]) h d ≫= splice (λ n, [s; n]) h = Some body →
  splice (λ n, [s; n; e]) h d = Some body.
Proof.
  unfold splice at 2 3.
  destruct (resolve d h) as [n|] eqn:Hres; [|done].
  pose proof (splice_in_bracket s e h _ n Hres) as Hb. unfold resolve in Hres.
  destruct (splice_in (λ n, [n; e]) h [documentElement d])
    as [|[t a kids|x] [|r2 rest]] eqn:H1; try done.
  cbn [mbind option_bind].
  unfold splice, resolve, documentElement. cbn [rootTag rootAttributes rootChildren].
  destruct (resolve_in [Element t a kids] h); [|done].
  rewrite Hb. intros Hbody. exact Hbody.
Qed.


(** ** The range of a comment *)

Lemma paragraph_by_index_resolves (dom : document) (location : Z) (h : handle) :
  word_ops.paragraph_by_index dom location = Some h →
  ∃ a kids, resolve dom h = Some (Element "w:p" a kids).
Proof.
  unfold word_ops.paragraph_by_index. case_match; [|done].
  destruct (_ !! _) as [[h' p]|] eqn:Hlook; [|done]. intros [= <-].
  apply list_elem_of_lookup_2, elements_from_resolve in Hlook as [Hres Htag].
  apply tag_matches_paragraph in Htag as (a & kids & ->). eauto.
Qed.

Lemma add_comment_range_is_one_node `{C : Collaborators}
    (w : world) (docx_path : string) (location : Z) (text author : string) :
  ∃ new,
    calls (word_ops.add_comment docx_path location text author w).2 = calls w ++ new
    ∧ (comment_ranges new = []
       ∨ ∃ node, comment_ranges new = [(node, node, text)]
                 ∧ handle_ltb node node = false
                 ∧ located w docx_path location author node).
Proof.
  unfold word_ops.add_comment. step_op.
  destruct (unpack_document (disk w !! docx_path)) as [unpack_dir|e] eqn:Hu;
    cbn [fst snd disk calls]; [|eexists; split; [reflexivity|by left]].
  destruct (Document unpack_dir (Some author) None) as [doc|e] eqn:Hd;
    cbn [fst snd disk calls];
    [|eexists; split; [rewrite <- !app_assoc; reflexivity|by left]].
  destruct (Document_get doc word_ops.document_xml) as [[doc' dom]|e] eqn:Hg;
    cbn [fst snd disk calls];
    [|eexists; split; [rewrite <- !app_assoc; reflexivity|by left]].
  destruct (get_node doc' word_ops.document_xml "w:p" location) as [found|e] eqn:Hn;
    cbn [fst snd disk calls];
    [|eexists; split; [rewrite <- !app_assoc; reflexivity|by left]].
  assert (∀ node,
            (found = Some node
             ∨ (found = None ∧ word_ops.paragraph_by_index dom location = Some node)) →
            located w docx_path location author node) as Hloc.
  { intros node Hnode. exists unpack_dir, doc, doc', dom.
    repeat split; try done. destruct Hnode as [->|[-> Hidx]]; [by left|right].
    split; [done|]. split; [done|]. by apply (paragraph_by_index_resolves dom location). }
  destruct (match found with
            | Some n => Some n
            | None => word_ops.paragraph_by_index dom location
            end) as [node|] eqn:Hnode;
    cbn [fst snd disk calls];
    [|eexists; split; [rewrite <- !app_assoc; reflexivity|by left]].
  assert (located w docx_path location author node) as Hl.
  { apply Hloc. destruct found; [left; congruence | right; done]. }
  assert (handle_ltb node node = false) as Hirr.
  { destruct (handle_ltb node node) eqn:E; [|done]. by destruct (handle_lt_irrefl node). }
  split_outcomes;
    (eexists; split; [rewrite <- !app_assoc; reflexivity|]; right; exists node; done).
Qed.

Lemma invalid_range_unreachable `{C : Collaborators}
    (w : world) (docx_path : string) (location : Z) (text author : string) :
  range_contract →
  ¬ raises_invalid_range (word_ops.add_comment docx_path location text author w).1.
Proof.
  intros (Hunpack & Hopen & Hget & Hnode & Hsave & Hpack & Hrange) (err & Hrun & Hkind).
  revert Hrun. unfold word_ops.add_comment. step_op.
  destruct (unpack_document (disk w !! docx_path)) as [unpack_dir|e] eqn:Hu;
    cbn [fst snd disk calls];
    [|intros [= ->]; eapply Hunpack; eexists; eauto].
  destruct (Document unpack_dir (Some author) None) as [doc|e] eqn:Hd;
    cbn [fst snd disk calls];
    [|intros [= ->]; eapply Hopen; eexists; eauto].
  destruct (Document_get doc word_ops.document_xml) as [[doc' dom]|e] eqn:Hg;
    cbn [fst snd disk calls];
    [|intros [= ->]; eapply Hget; eexists; eauto].
  destruct (get_node doc' word_ops.document_xml "w:p" location) as [found|e] eqn:Hn;
    cbn [fst snd disk calls];
    [|intros [= ->]; eapply Hnode; eexists; eauto].
  destruct (match found with
            | Some n => Some n
            | None => word_ops.paragraph_by_index dom location
            end) as [node|]; cbn [fst snd disk calls]; [|done].
  destruct (Document_add_comment doc' node node text) as [doc2|e] eqn:Ha;
    cbn [fst snd disk calls].
  2:{ intros [= ->]. eapply (handle_lt_irrefl node), Hrange. eexists; eauto. }
  destruct (Document_save doc2) as [dir2|e] eqn:Hs; cbn [fst snd disk calls];
    [|intros [= ->]; eapply Hsave; eexists; eauto].
  destruct (pack_document dir2) as [z|e] eqn:Hp; cbn [fst snd disk calls];
    [done|intros [= ->]; eapply Hpack; eexists; eauto].
Qed.


(** C9.  [add_comment] asks for at most one comment range, and its start
    and its end are the same node: the paragraph it located, by line or, in
    the index case, a [w:p] element of the tree.  An end that comes before
    the start is therefore impossible, so, [InvalidRange] being raised only
    for such a range and only by the comment call, the operation never
    ends in [InvalidRange]. *)
Theorem add_comment_single_node_range `{C : Collaborators}
    (w : world) (docx_path : string) (location : Z) (text author : string) :
  range_contract →
  ¬ raises_invalid_range (word_ops.add_comment docx_path location text author w).1
  ∧ ∃ new,
      calls (word_ops.add_comment docx_path location text author w).2 = calls w ++ new
      ∧ (comment_ranges new = []
         ∨ ∃ node, comment_ranges new = [(node, node, text)]
                   ∧ handle_ltb node node = false
                   ∧ located w docx_path location author node).
Proof.
  intros Hcontract. split.
  - by apply invalid_range_unreachable.
  - apply add_comment_range_is_one_node.
Qed.

(** ** Two calls of [enable_tracking] on the modelled collaborators *)

Module SpecModelFacts.
Import SpecModel.

Section Twice.
Variables (cfg : settings) (path author_ initials_ : string).
Variables (entries : list (string * list token)) (ts ct : list token) (d : document).
Hypothesis body_found : (list_to_map entries : gmap string (list token)) !! body_part = Some ts.
Hypothesis body_parses : parse ts = Some d.
Hypothesis types_found :
  (list_to_map entries : gmap string (list token)) !! content_types = Some ct.


Lemma enable_tracking_on_model (rnd : Z) (w : @world (collaborators cfg)) :
  disk w !! path = Some (Zip entries) →
  ∃ log,
    word_ops.enable_tracking (C := collaborators cfg) rnd path author_ initials_ w
    = (Returns [("success", JBool true);
                ("message", JStr "Revision tracking enabled");
                ("author", JStr author_);
                ("initials", JStr initials_)],
       @World (collaborators cfg) (<[path := packed entries ct d rnd]> (disk w)) log).
Proof.
  intros Hdisk. unfold word_ops.enable_tracking. step_op.
  cbn [unpack_document Document Document_get store_dom Document_save pack_document
       collaborators]. 
  match goal with
  | |- context [unpack ?x] => replace x with (Some (Zip entries)) by (symmetry; exact Hdisk)
  end. cbn [unpack open]. unfold get. cbn [parts unpacked_dir].
  rewrite lookup_empty. unfold word_ops.document_xml. fold body_part.
  rewrite body_found, body_parses. cbn [fst snd disk calls].
  unfold save, put. cbn [parts unpacked_dir tree dirty lines].
  rewrite insert_insert_eq, insert_empty, map_filter_singleton_True by done.
  rewrite map_fmap_singleton. cbn [tree]. rewrite <- insert_union_singleton_l.
  unfold pack. rewrite lookup_insert_ne by done. rewrite types_found.
  cbn [fst snd disk calls]. eexists. reflexivity.
Qed.
End Twice.

Lemma unpack_packed (entries : list (string * list token)) (ct : list token)
    (d : document) (rnd : Z) :
  (list_to_map entries : gmap string (list token)) !! content_types = Some ct →
  unpack (Some (packed entries ct d rnd))
  = Returns (<[body_part := serialize (word_ops.ensure_rsid rnd d)]> (list_to_map entries)).
Proof.
  intros Hct. unfold packed, unpack. f_equal.
  rewrite list_to_map_cons, list_to_map_to_list. apply insert_delete_id.
  by rewrite lookup_insert_ne.
Qed.

Lemma enable_tracking_twice_on_model (cfg : settings) (path author_ initials_ : string)
    (entries : list (string * list token)) (ts ct : list token) (d : document)
    (r1 r2 : Z) (w : @world (collaborators cfg)) :
  (list_to_map entries : gmap string (list token)) !! body_part = Some ts →
  parse ts = Some d →
  (list_to_map entries : gmap string (list token)) !! content_types = Some ct →
  disk w !! path = Some (Zip entries) →
  let run1 := word_ops.enable_tracking (C := collaborators cfg) r1 path author_ initials_ w in
  let run2 :=
    word_ops.enable_tracking (C := collaborators cfg) r2 path author_ initials_ run1.2 in
  (∃ r, run1.1 = Returns r ∧ run2.1 = Returns r
        ∧ dict_get r "success" = Some (JBool true))
  ∧ disk run2.2 = disk run1.2
  ∧ disk run2.2 !! path = Some (packed entries ct d r1)
  ∧ ∃ dir, unpack (Some (packed entries ct d r1)) = Returns dir
           ∧ dir !! body_part = Some (serialize (word_ops.ensure_rsid r1 d)).
Proof.
  intros Hbody Hparse Hct Hdisk run1 run2.
  destruct (enable_tracking_on_model cfg path author_ initials_ entries ts ct d
              Hbody Hparse Hct r1 w Hdisk) as (log1 & H1).
  assert ((list_to_map
             ((content_types, ct)
              :: map_to_list (delete content_types
                   (<[body_part := serialize (word_ops.ensure_rsid r1 d)]>
                      (list_to_map entries : gmap string (list token)))))
           : gmap string (list token))
          = <[body_part := serialize (word_ops.ensure_rsid r1 d)]> (list_to_map entries))
    as Hmap.
  { pose proof (unpack_packed entries ct d r1 Hct) as Hunpack.
    unfold packed, unpack in Hunpack. congruence. }
  assert (disk run1.2 !! path = Some (packed entries ct d r1)) as Hdisk1.
  { subst run1. rewrite H1. cbn [snd disk]. apply lookup_insert_eq. }
  destruct (enable_tracking_on_model cfg path author_ initials_ _
              (serialize (word_ops.ensure_rsid r1 d)) ct (word_ops.ensure_rsid r1 d)
              ltac:(rewrite Hmap; apply lookup_insert_eq)
              (parse_serialize _)
              ltac:(rewrite Hmap; by rewrite lookup_insert_ne)
              r2 run1.2 Hdisk1) as (log2 & H2).
  assert (packed ((content_types, ct)
                  :: map_to_list (delete content_types
                       (<[body_part := serialize (word_ops.ensure_rsid r1 d)]>
                          (list_to_map entries : gmap string (list token)))))
            ct (word_ops.ensure_rsid r1 d) r2
          = packed entries ct d r1) as Hsame.
  { unfold packed at 1. rewrite Hmap, ensure_rsid_again, insert_insert_eq. reflexivity. }
  split; [|split; [|split]].
  - eexists. subst run2. rewrite H2. subst run1. rewrite H1. cbn [fst].
    split; [reflexivity|]. split; reflexivity.
  - subst run2. rewrite H2. cbn [snd disk]. rewrite Hsame.
    subst run1. rewrite H1. cbn [snd disk]. apply insert_insert_eq.
  - subst run2. rewrite H2. cbn [snd disk]. rewrite Hsame. apply lookup_insert_eq.
  - eexists. split; [apply unpack_packed; exact Hct|]. apply lookup_insert_eq.
Qed.


(** The modelled codec and registry hand back the tree that was saved. *)
Lemma model_reload_contract (cfg : settings) : reload_contract (C := collaborators cfg).
Proof.
  intros reg dom dir a au ini dir' reg' reg'' dom'.
  cbn [Document_save store_dom pack_document unpack_document Document Document_get
       collaborators].
  unfold save, put, pack, open, get. cbn [parts unpacked_dir].
  intros [= <-]. 
  match goal with |- context [?m !! content_types] => destruct (m !! content_types) as [ct|] eqn:Hct end;
    [|done].
  intros [= <-]. cbn [unpack]. rewrite list_to_map_cons, list_to_map_to_list.
  rewrite insert_delete_id by done.
  intros [= <-] [= <-]. cbn [parts unpacked_dir]. rewrite lookup_empty.
  unfold word_ops.document_xml. 
  erewrite lookup_union_Some_l; last first.
  { rewrite lookup_fmap. erewrite (proj2 (map_lookup_filter_Some _ _ _ _)); [reflexivity|].
    split; [apply lookup_insert_eq|done]. }
  cbn [tree]. rewrite parse_serialize. by intros [= _ <-].
Qed.

(** ** The range contract on the modelled collaborators *)

Lemma get_not_invalid_range (cfg : settings) (reg : registry_state) (path : string) :
  ¬ raises_invalid_range (get cfg reg path).
Proof.
  intros (e & H & Hk). unfold get in H.
  destruct (parts reg !! path); [done|].
  destruct (unpacked_dir reg !! path) as [ts|]; [|by injection H as <-].
  destruct (parse ts); [done|by injection H as <-].
Qed.

Lemma addComment_invalid_range (cfg : settings) (reg : registry_state)
    (s e : handle) (text : string) :
  raises_invalid_range (addComment cfg reg s e text) → handle_lt e s.
Proof.
  intros (err & H & Hk). unfold addComment in H.
  destruct (parts reg !! body_part) as [p|]; [|by injection H as <-].
  destruct (handle_ltb e s) eqn:Hlt; [done|].
  destruct (_ ≫= _) as [body|]; [|by injection H as <-].
  destruct (get cfg reg comments_part) as [[reg' c]|e'] eqn:Hget; [done|].
  assert (kind e' ≠ InvalidRange) as Hne.
  { intros Hbad. apply (get_not_invalid_range cfg reg comments_part).
    rewrite Hget. by exists e'. }
  destruct (kind e') eqn:Hkind; try done; injection H as <-; congruence.
Qed.

Lemma model_range_contract (cfg : settings) : range_contract (C := collaborators cfg).
Proof.
  unfold range_contract.
  cbn [unpack_document Document Document_get get_node Document_add_comment
       Document_save pack_document collaborators].
  split; [|split; [|split; [|split; [|split; [|split]]]]].
  - intros file (e & H & Hk). unfold unpack in H.
    destruct file as [[entries|]|]; [done| |]; by injection H as <-.
  - by intros dir a i (e & H & Hk).
  - intros doc path. apply get_not_invalid_range.
  - intros doc path tag line (e & H & Hk). unfold locate in H.
    destruct (parts doc !! path); [done|by injection H as <-].
  - by intros doc (e & H & Hk).
  - intros dir (e & H & Hk). unfold pack in H.
    case_match; [done|by injection H as <-].
  - intros doc s e text. apply addComment_invalid_range.
Qed.

Lemma addComment_brackets_node (cfg : settings) (reg reg' : registry_state)
    (h : handle) (text : string) (p : part) :
  parts reg !! body_part = Some p →
  addComment cfg reg h h text = Returns reg' →
  ∃ body,
    tree <$> parts reg' !! body_part = Some body
    ∧ splice (λ n, [range_marker "w:commentRangeStart" (pretty (next_revision reg)); n;
                    range_marker "w:commentRangeEnd" (pretty (next_revision reg))])
        h (enableTracking cfg (tree p))
      = Some body.
Proof.
  intros Hpart. unfold addComment. rewrite Hpart, handle_ltb_irrefl.
  destruct (_ ≫= _) as [body|] eqn:Hsplice; [|done].
  apply splice_bracket in Hsplice.
  destruct (match get cfg reg comments_part with
            | Returns (_, c) => Returns c
            | Raises e => _
            end) as [c|e]; [|done].
  intros [= <-]. exists body. split; [|done].
  cbn [bump put parts]. rewrite lookup_insert_ne by done.
  by rewrite lookup_insert_eq.
Qed.

(** ** Tracked deletion *)

Lemma deleted_text_element (t : string) (a : list (string * string)) (kids : list node) :
  deleted_text (Element t a kids)
  = Element (if bool_decide (t = "w:t") then "w:delText" else t) a (deleted_text <$> kids).
Proof.
  reflexivity.
Qed.

Lemma text_content_deleted_text (n : node) : text_content (deleted_text n) = text_content n.
Proof.
  induction n as [t a kids IH|s] using node_nested_ind; [|reflexivity].
  rewrite deleted_text_element, !text_content_element. f_equal.
  induction IH as [|k kids Hk _ IHk]; [reflexivity|]. cbn. by rewrite Hk, IHk.
Qed.

Lemma text_content_mark_deleted (id who : string) (n : node) :
  text_content (mark_deleted id who n) = text_content n.
Proof.
  destruct n as [t a kids|s]; [|reflexivity]. cbn [mark_deleted].
  rewrite !text_content_element. unfold tracked. cbn [fmap list_fmap join foldr].
  rewrite text_content_element.
  assert (∀ s, s +:+ "" = s) as Happ.
  { intros s. induction s as [|c s IHs]; [reflexivity|].
    change (String c (s +:+ "") = String c s). by rewrite IHs. }
  rewrite Happ. f_equal. rewrite <- list_fmap_compose. apply list_fmap_ext.
  intros _ k _. apply text_content_deleted_text.
Qed.

Lemma mark_deleted_element (id who : string) :
  ∀ t a kids, ∃ t' a' kids', mark_deleted id who (Element t a kids) = Element t' a' kids'.
Proof. intros t a kids. cbn. eauto. Qed.

(** C3.  [suggestDeletion] on a node of a loaded part returns, and in the
    tree it leaves the same handle still leads to an element with the same
    tag (and, unless it is the document element, the same attributes); its
    former children, text runs turned into deleted text, sit inside one
    deletion marker that carries the revision identifier and the author, so
    no character data is lost.  The tree serializes to tokens that parse
    back to it, and after [save] the file of the part parses to it. *)
Theorem suggestDeletion_keeps_node (cfg : settings) (reg : registry_state)
    (path : string) (h : handle) (p : part)
    (t : string) (a : list (string * string)) (kids : list node) :
  parts reg !! path = Some p →
  resolve (tree p) h = Some (Element t a kids) →
  ∃ reg' d' a' dir',
    suggestDeletion cfg reg path h = Returns reg'
    ∧ tree <$> parts reg' !! path = Some d'
    ∧ resolve d' h
      = Some (Element t a'
                [tracked "w:del" (pretty (next_revision reg)) (author reg)
                   (deleted_text <$> kids)])
    ∧ (h ≠ [0%nat] → a' = a)
    ∧ text_content (Element t a'
                      [tracked "w:del" (pretty (next_revision reg)) (author reg)
                         (deleted_text <$> kids)])
      = text_content (Element t a kids)
    ∧ parse (serialize d') = Some d'
    ∧ save reg' = Returns dir'
    ∧ dir' !! path ≫= parse = Some d'.
Proof.
  intros Hpart Hres. unfold suggestDeletion. rewrite Hpart.
  destruct (resolve_ensure_rsid (seed cfg) (tree p) h t a kids Hres) as (a' & Hres' & Ha).
  destruct (splice_single (mark_deleted (pretty (next_revision reg)) (author reg))
              (enableTracking cfg (tree p)) h _
              (mark_deleted_element _ _) Hres') as (d' & Hsplice & Hd').
  rewrite Hsplice. eexists _, d', a', _.
  split; [reflexivity|]. split; [|split; [|split; [|split; [|split; [|split]]]]].
  - cbn [bump put parts]. by rewrite lookup_insert_eq.
  - exact Hd'.
  - exact Ha.
  - exact (text_content_mark_deleted (pretty (next_revision reg)) (author reg)
             (Element t a' kids)).
  - apply parse_serialize.
  - reflexivity.
  - cbn [bump put parts unpacked_dir].
    match goal with
    | |- (?m1 ∪ ?m2) !! _ ≫= _ = _ =>
        assert (m1 !! path = Some (serialize d')) as Hlook
    end.
    { rewrite lookup_fmap.
      erewrite map_lookup_filter_Some_2; cycle 1;
        [apply lookup_insert_eq | reflexivity | reflexivity]. }
    rewrite (lookup_union_Some_l _ _ _ _ Hlook). apply parse_serialize.
Qed.

Lemma suggestDeletion_keeps_node_witness :
  let reg := Registry ∅ {[ body_part := Part Sample.body None false ]} "Ann" "C" 0 in
  let kids := [Element "w:r" [] [Element "w:t" [] [Text " Gamma "]]] in
  ∃ reg' d' a' dir',
    suggestDeletion Sample.by_index reg body_part [0; 0; 5]%nat = Returns reg'
    ∧ tree <$> parts reg' !! body_part = Some d'
    ∧ resolve d' [0; 0; 5]%nat
      = Some (Element "w:p" a'
                [tracked "w:del" (pretty (next_revision reg)) (author reg)
                   (deleted_text <$> kids)])
    ∧ ([0; 0; 5]%nat ≠ [0%nat] → a' = [])
    ∧ text_content (Element "w:p" a'
                      [tracked "w:del" (pretty (next_revision reg)) (author reg)
                         (deleted_text <$> kids)])
      = text_content (Element "w:p" [] kids)
    ∧ parse (serialize d') = Some d'
    ∧ save reg' = Returns dir'
    ∧ dir' !! body_part ≫= parse = Some d'.
Proof.
  intros reg kids.
  apply (suggestDeletion_keeps_node Sample.by_index reg body_part [0; 0; 5]%nat
           (Part Sample.body None false) "w:p" [] kids); reflexivity.
Defined.

(** ** The operations on the sample *)

(** On the sample, a deletion suggested on the third paragraph leaves the
    paragraph in place, its run inside the deletion marker. *)
Example suggest_deletion_sample :
  let C := collaborators Sample.by_index in
  let run := word_ops.suggest_deletion (C := C) "a.docx" 2 "Ann" (Sample.start Sample.by_index) in
  run.1 = Returns [("success", JBool true);
                   ("message", JStr "Deletion suggested at location 2");
                   ("location", JInt 2)]
  ∧ ∃ entries,
      disk run.2 !! "a.docx" = Some (Zip entries)
      ∧ (list_to_map entries : gmap string (list token)) !! body_part ≫= parse
        = Some (Document_node "w:document" [("w:rsidRDefault", "1234")]
                  [Element "w:body" []
                     [Text (String "010" ""); Sample.para "Alpha";
                      Text (String "010" ""); Sample.para "   ";
                      Text (String "010" "");
                      Element "w:p" []
                        [Element "w:del" [("w:id", "0"); ("w:author", "Ann")]
                           [Element "w:r" []
                              [Element "w:delText" [] [Text " Gamma "]]]]]]).
Proof.
  cbn zeta. split; [reflexivity|]. eexists. split; reflexivity.
Qed.

(** On the sample, a comment on the second paragraph puts the two markers
    around that paragraph only and adds one comment definition. *)
Example add_comment_sample_archive :
  let C := collaborators Sample.by_index in
  let run := word_ops.add_comment (C := C) "a.docx" 1 "Check this" "Ann"
               (Sample.start Sample.by_index) in
  ∃ entries,
    disk run.2 !! "a.docx" = Some (Zip entries)
    ∧ (list_to_map entries : gmap string (list token)) !! body_part ≫= parse
      = Some (Document_node "w:document" [("w:rsidRDefault", "1234")]
                [Element "w:body" []
                   [Text (String "010" ""); Sample.para "Alpha";
                    Text (String "010" "");
                    range_marker "w:commentRangeStart" "0";
                    Sample.para "   ";
                    range_marker "w:commentRangeEnd" "0";
                    Text (String "010" ""); Sample.para " Gamma "]])
    ∧ (list_to_map entries : gmap string (list token)) !! comments_part ≫= parse
      = Some (Document_node "w:comments" []
                [Element "w:comment"
                   [("w:id", "0"); ("w:author", "Ann"); ("w:initials", "C")]
                   [Element "w:p" [] [run_of "Check this"]]]).
Proof.
  cbn zeta. eexists. split; [reflexivity|]. split; reflexivity.
Qed.

End SpecModelFacts.

Lemma enable_tracking_idempotent_witness :
  let C := SpecModel.collaborators Sample.by_index in
  let w := Sample.start Sample.by_index in
  let w1 := (word_ops.enable_tracking 4660 "a.docx" "Ann" "A" w).2 in
  let w2 := (word_ops.enable_tracking 43981 "a.docx" "Ann" "A" w1).2 in
  ∃ doc1 dom doc2,
    let d1 := word_ops.ensure_rsid 4660 dom in
    loads w "a.docx" (Some "Ann") (Some "A") doc1 dom
    ∧ writes_back w w1 "a.docx" (store_dom doc1 word_ops.document_xml d1)
    ∧ loads w1 "a.docx" (Some "Ann") (Some "A") doc2 d1
    ∧ writes_back w1 w2 "a.docx" (store_dom doc2 word_ops.document_xml d1)
    ∧ (∃ rsid,
         getAttribute (rootAttributes d1) "w:rsidRDefault" = Some rsid
         ∧ (hasAttribute (rootAttributes dom) "w:rsidRDefault" = false →
            rsid = format_04X 4660)
         ∧ (hasAttribute (rootAttributes dom) "w:rsidRDefault" = true →
            getAttribute (rootAttributes dom) "w:rsidRDefault" = Some rsid ∧ d1 = dom))
    ∧ (NoDup (rootAttributes dom).*1 →
       NoDup (rootAttributes d1).*1
       ∧ attribute_count (rootAttributes d1) "w:rsidRDefault" = 1%nat).
Proof.
  intros C w w1 w2.
  pose (res := [("success", JBool true); ("message", JStr "Revision tracking enabled");
                ("author", JStr "Ann"); ("initials", JStr "A")]).
  apply (@enable_tracking_idempotent C 4660 43981 "a.docx" "Ann" "A" w w1 w2 res res).
  - apply SpecModelFacts.model_reload_contract.
  - reflexivity.
  - reflexivity.
Defined.

Lemma add_comment_single_node_range_witness :
  let C := SpecModel.collaborators Sample.by_index in
  let w := Sample.start Sample.by_index in
  ¬ raises_invalid_range (word_ops.add_comment "a.docx" 1 "Check this" "Ann" w).1
  ∧ ∃ new,
      calls (word_ops.add_comment "a.docx" 1 "Check this" "Ann" w).2 = calls w ++ new
      ∧ (comment_ranges new = []
         ∨ ∃ node, comment_ranges new = [(node, node, "Check this")]
                   ∧ handle_ltb node node = false
                   ∧ located w "a.docx" 1 "Ann" node).
Proof.
  intros C w.
  apply (@add_comment_single_node_range C w "a.docx" 1 "Check this" "Ann").
  apply SpecModelFacts.model_range_contract.
Defined.

(** On the sample, the comment on paragraph 1 is asked for the one node
    [[0; 0; 3]], and the call is followed by [save] and [pack_document]. *)
Example add_comment_sample :
  calls (word_ops.add_comment (C := SpecModel.collaborators Sample.by_index)
           "a.docx" 1 "Check this" "Ann" (Sample.start Sample.by_index)).2
  = [CallUnpack "a.docx"; CallDocument (Some "Ann") None; CallGet "word/document.xml";
     CallGetNode "word/document.xml" "w:p" 1;
     CallAddComment [0; 0; 3]%nat [0; 0; 3]%nat "Check this"; CallSave;
     CallPack "a.docx"].
Proof. reflexivity. Qed.

(** * Further properties of the scripts *)

(** ** scripts/word_ops.py *)

(** X1.  Whatever the collaborators do, a run of a [word_ops] command
    either leaves every file as it was, or returns a result with
    [success = true] after replacing exactly the archive at [docx_path];
    [save] is called at most once, [pack_document] at most once and only
    after [save], and a run that fails after them has changed no file. *)
Theorem archive_changes_only_on_success `{C : Collaborators}
    (rnd : Z) (a : word_ops.args) (w : world) :
  ∃ new,
    calls (word_ops.run rnd a w).2 = calls w ++ new
    ∧ ((disk (word_ops.run rnd a w).2 = disk w
        ∧ (write_calls new = [] ∨ write_calls new = [CallSave]
           ∨ ∃ e, (word_ops.run rnd a w).1 = Raises e
                  ∧ write_calls new = [CallSave; CallPack (docx_path_of a)]))
       ∨ ∃ r z,
           (word_ops.run rnd a w).1 = Returns r
           ∧ dict_get r "success" = Some (JBool true)
           ∧ disk (word_ops.run rnd a w).2 = <[docx_path_of a := z]> (disk w)
           ∧ write_calls new = [CallSave; CallPack (docx_path_of a)]).
Proof.
  destruct a; cbn [word_ops.run docx_path_of];
    [unfold word_ops.add_comment | unfold word_ops.enable_tracking
    | unfold word_ops.suggest_insertion | unfold word_ops.suggest_deletion
    | unfold word_ops.validate_document];
    step_op; split_outcomes;
    (eexists; split; [rewrite <- ?app_assoc; reflexivity|]);
    first [ left; split; [reflexivity|]; first [ by left | by right; left
                                                | right; right; eexists; by split ]
          | right; eexists _, _; repeat split; reflexivity ].
Qed.

Lemma string_length_app (s t : string) :
  String.length (s +:+ t) = (String.length s + String.length t)%nat.
Proof.
  induction s as [|c s IH]; [reflexivity|].
  change (S (String.length (s +:+ t)) = S (String.length s + String.length t)).
  by rewrite IH.
Qed.

Lemma zeros_length (k : nat) : String.length (zeros k) = k.
Proof. induction k as [|k IH]; [reflexivity|]. cbn. by rewrite IH. Qed.

Lemma upper_hex_go_length (fuel : nat) :
  ∀ (k : nat) (n : Z) (acc : string),
    0 ≤ n < 16 ^ Z.of_nat k → (1 ≤ k)%nat →
    (String.length (upper_hex_go fuel n acc) ≤ k + String.length acc)%nat.
Proof.
  induction fuel as [|fuel IH]; intros k n acc Hn Hk; cbn [upper_hex_go]; [lia|].
  destruct (n `div` 16 =? 0) eqn:Hdiv; [cbn; lia|].
  apply Z.eqb_neq in Hdiv.
  assert (16 ≤ n) as Hbig.
  { destruct (decide (n < 16)); [|lia]. destruct Hdiv. apply Z.div_small. lia. }
  destruct k as [|[|k]]; [lia| |].
  - change (16 ^ Z.of_nat 1) with 16 in Hn. lia.
  - specialize (IH (S k) (n `div` 16) (String (hex_digit (n `mod` 16)) acc)).
    cbn [String.length] in IH.
    assert (0 ≤ n `div` 16 < 16 ^ Z.of_nat (S k)) as Hq.
    { split; [apply Z.div_pos; lia|]. apply Z.div_lt_upper_bound; [lia|].
      replace (Z.of_nat (S (S k))) with (Z.of_nat (S k) + 1) in Hn by lia.
      rewrite Z.pow_add_r in Hn by lia. lia. }
    specialize (IH Hq ltac:(lia)). lia.
Qed.

(** X5.  The identifier [enable_tracking] formats from a draw of
    [random.randint(0, 0xFFFF)] has exactly four characters. *)
Theorem rsid_has_four_characters (rnd : Z) :
  0 ≤ rnd ≤ 65535 → String.length (format_04X rnd) = 4%nat.
Proof.
  intros Hrange. unfold format_04X, upper_hex.
  rewrite string_length_app, zeros_length.
  pose proof (upper_hex_go_length (S (Z.to_nat (Z.log2 rnd))) 4 rnd ""
                ltac:(change (16 ^ Z.of_nat 4) with 65536; lia) ltac:(lia)) as Hlen.
  cbn [String.length] in Hlen. lia.
Qed.

Lemma rsid_has_four_characters_witness : String.length (format_04X 255) = 4%nat.
Proof. apply (rsid_has_four_characters 255). lia. Defined.

(** On the sample, a lookup that fails ends the process with status 1. *)
Lemma word_ops_main_exit_status_witness :
  let C := SpecModel.collaborators Sample.by_index in
  let r := word_ops.not_found 3 in
  (1 ≠ 0 ↔ dict_get r "success" = Some (JBool false))
  ∧ (1 = 0 ↔ dict_get r "success" = Some (JBool true)).
Proof.
  intros C r.
  apply (@word_ops_main_exit_status C 0
           (word_ops.Args_suggest_deletion "a.docx" 3 "Ann")
           (Sample.start Sample.by_index) r 1).
  reflexivity.
Defined.

Lemma word_ops_validate_fields_witness :
  let r := [("success", JBool true); ("valid", JBool true);
            ("errors", JList []); ("warnings", JList [])] in
  (∃ b, dict_get r "valid" = Some (JBool b) ∧ dict_get r "success" = Some (JBool b))
  ∧ string_list_field r "errors" ∧ string_list_field r "warnings".
Proof.
  intros r.
  apply (@word_ops_validate_fields (SpecModel.collaborators Sample.by_index)
           "a.docx" (Sample.start Sample.by_index) r).
  reflexivity.
Defined.

(** ** scripts/word_cli.py *)

(** X4.  For a directory whose registry opens and whose body part loads,
    [read_document] fails exactly when some paragraph holds a [w:t] that
    starts with an element: the [TypeError] of [str.join] is caught and the
    result is [success = false] with its message, whatever the other
    paragraphs hold. *)
Theorem read_document_fails_as_a_whole `{C : Collaborators}
    (dir : directory) (doc doc' : registry) (dom : document) :
  Document dir None None = Returns doc →
  Document_get doc "word/document.xml" = Returns (doc', dom) →
  let paragraphs := (Document_getElementsByTagName "w:p" dom).*2 in
  (forallb text_runs_ok paragraphs = false
   → ∃ j, word_cli.read_document dir = word_cli.failure (join_error j))
  ∧ (is_failure (word_cli.read_document dir) → forallb text_runs_ok paragraphs = false).
Proof.
  intros Hopen Hget paragraphs. unfold word_cli.read_document.
  rewrite Hopen, Hget. fold paragraphs. split.
  - intros Hbad. destruct (collect_raises paragraphs 0 Hbad) as [j ->]. by exists j.
  - destruct (forallb text_runs_ok paragraphs) eqn:Hok; [|done].
    rewrite (collect_visible paragraphs 0 Hok). by intros [? _].
Qed.

Lemma read_document_fails_as_a_whole_witness :
  let C := SpecModel.collaborators Sample.by_index in
  let dom :=
    Document_node "w:document" []
      [Element "w:body" []
         [Sample.para "Alpha";
          Element "w:p" [] [Element "w:r" [] [Element "w:t" [] [Element "w:br" [] []]]]]] in
  let dir : gmap string (list token) :=
    {[ SpecModel.body_part := serialize dom;
       SpecModel.content_types := Sample.types ]} in
  let paragraphs := (Document_getElementsByTagName "w:p" dom).*2 in
  (forallb text_runs_ok paragraphs = false
   → ∃ j, word_cli.read_document (C := C) dir = word_cli.failure (join_error j))
  ∧ (is_failure (word_cli.read_document (C := C) dir)
     → forallb text_runs_ok paragraphs = false).
Proof.
  intros C dom dir.
  eapply (@read_document_fails_as_a_whole C dir); reflexivity.
Defined.

(** ** scripts/verify-pyodide.py *)

Module VerifyFacts.
Import verify_pyodide.

Lemma core_files_loop_ok (d : pyodide_dir) (files : list string) (all_ok : bool) (total : Z) :
  (core_files_loop d files all_ok total).1.1 = true
  ↔ all_ok = true ∧ Forall (big_enough d) files.
Proof.
  revert all_ok total. induction files as [|f files IH]; intros all_ok total.
  - cbn. split; [by intros ->|by intros [-> _]].
  - cbn [core_files_loop]. destruct (st_size d !! f) as [size|] eqn:Hf.
    + destruct (size <? min_size MIN_FILE_SIZES f) eqn:Hlt.
      * specialize (IH false (total + size)).
        destruct (core_files_loop d files false (total + size)) as [[ok t] marks].
        cbn [fst snd] in *. rewrite IH. split; [by intros [? _]|].
        intros [_ Hall]. apply Forall_cons in Hall as [(size' & Hs & Hle) _].
        apply Z.ltb_lt in Hlt. simplify_eq. lia.
      * specialize (IH all_ok (total + size)).
        destruct (core_files_loop d files all_ok (total + size)) as [[ok t] marks].
        cbn [fst snd] in *. rewrite IH, Forall_cons. apply Z.ltb_ge in Hlt.
        split; [intros [? ?]; split; [done|]; split; [by exists size|done]|].
        by intros [? [_ ?]].
    + specialize (IH false total).
      destruct (core_files_loop d files false total) as [[ok t] marks].
      cbn [fst snd] in *. rewrite IH. split; [by intros [? _]|].
      intros [_ Hall]. apply Forall_cons in Hall as [(size' & Hs & Hle) _]. congruence.
Qed.

(** X10.  [verify_core_files] returns [True] exactly when every core file
    exists and is at least as large as its minimum size. *)
Theorem verify_core_files_iff (d : pyodide_dir) :
  verify_core_files d = true ↔ ∀ filename, filename ∈ CORE_FILES → big_enough d filename.
Proof.
  unfold verify_core_files. rewrite core_files_loop_ok, Forall_forall.
  split; [by intros [_ ?]|by split].
Qed.

(** X11.  The loop of [verify_core_files] adds the sizes of the files that
    exist to the total, too small or not, and prints one mark per file, in
    order: failed for a missing file, a warning for one below its minimum,
    passed otherwise. *)
Theorem core_files_total_and_marks (d : pyodide_dir) (files : list string)
    (all_ok : bool) (total : Z) :
  (core_files_loop d files all_ok total).1.2 = total + sizes_sum d files
  ∧ length (core_files_loop d files all_ok total).2 = length files
  ∧ ∀ i filename,
      files !! i = Some filename →
      (core_files_loop d files all_ok total).2 !! i
      = Some (match st_size d !! filename with
              | None => Failed
              | Some size =>
                  if size <? min_size MIN_FILE_SIZES filename then Warned else Passed
              end).
Proof.
  revert all_ok total. induction files as [|f files IH]; intros all_ok total.
  - cbn. split; [lia|]. split; [done|]. by intros i filename.
  - cbn [core_files_loop sizes_sum foldr]. fold (sizes_sum d files).
    destruct (st_size d !! f) as [size|] eqn:Hf; cbn [default].
    + destruct (size <? min_size MIN_FILE_SIZES f) eqn:Hlt.
      * destruct (IH false (total + size)) as (H1 & H2 & H3).
        destruct (core_files_loop d files false (total + size)) as [[ok t] marks].
        cbn [fst snd] in *. unfold id. split; [lia|]. split; [cbn [length]; by rewrite H2|].
        intros [|i] filename; cbn [lookup list_lookup]; [intros [= <-]; by rewrite Hf, Hlt|apply H3].
      * destruct (IH all_ok (total + size)) as (H1 & H2 & H3).
        destruct (core_files_loop d files all_ok (total + size)) as [[ok t] marks].
        cbn [fst snd] in *. unfold id. split; [lia|]. split; [cbn [length]; by rewrite H2|].
        intros [|i] filename; cbn [lookup list_lookup]; [intros [= <-]; by rewrite Hf, Hlt|apply H3].
    + destruct (IH false total) as (H1 & H2 & H3).
      destruct (core_files_loop d files false total) as [[ok t] marks].
      cbn [fst snd] in *. unfold id. split; [lia|]. split; [cbn [length]; by rewrite H2|].
      intros [|i] filename; cbn [lookup list_lookup]; [intros [= <-]; by rewrite Hf|apply H3].
Qed.

Lemma all_files_exist_iff (present : gset string) (files : list string) :
  all_files_exist present files = true ↔ ∀ f, f ∈ files → f ∈ present.
Proof.
  induction files as [|f files IH]; cbn.
  - split; [intros _ f Hf; by apply elem_of_nil in Hf|done].
  - case_bool_decide as Hin.
    + rewrite IH. split; [intros Hall f' [->|?]%elem_of_cons; auto|].
      intros Hall f' Hf'. apply Hall. by right.
    + split; [done|]. intros Hall. destruct Hin. apply Hall. by left.
Qed.

Lemma packages_loop_ok (packages : gmap string pkg_info) (present : gset string)
    (names : list string) (all_ok : bool) :
  (packages_loop packages present names all_ok).1 = true
  ↔ all_ok = true ∧ Forall (complete packages present) names.
Proof.
  revert all_ok. induction names as [|n names IH]; intros all_ok.
  - cbn. split; [by intros ->|by intros [-> _]].
  - cbn [packages_loop]. destruct (packages !! n) as [info|] eqn:Hn.
    + destruct (all_files_exist present (default [] (pkg_files info))) eqn:Hall.
      * specialize (IH all_ok).
        destruct (packages_loop packages present names all_ok) as [ok marks].
        cbn [fst snd] in *. rewrite IH, Forall_cons.
        pose proof (proj1 (all_files_exist_iff _ _) Hall) as Hall'.
        split; [intros [? ?]; split; [done|]; split; [by exists info|done]|].
        by intros [? [_ ?]].
      * specialize (IH false).
        destruct (packages_loop packages present names false) as [ok marks].
        cbn [fst snd] in *. rewrite IH. split; [by intros [? _]|].
        intros [_ Hf]. apply Forall_cons in Hf as [(info' & Hi & Hfiles) _].
        simplify_eq. apply (proj2 (all_files_exist_iff _ _)) in Hfiles. congruence.
    + specialize (IH false).
      destruct (packages_loop packages present names false) as [ok marks].
      cbn [fst snd] in *. rewrite IH. split; [by intros [? _]|].
      intros [_ Hf]. apply Forall_cons in Hf as [(info' & Hi & _) _]. congruence.
Qed.

(** X12.  [verify_packages] returns [True] exactly when [packages.json]
    exists and parses, the [packages] directory exists, and every required
    package is in the index with all of its files in that directory. *)
Theorem verify_packages_iff (d : pyodide_dir) :
  verify_packages d = true
  ↔ is_Some (st_size d !! "packages.json")
    ∧ ∃ packages present,
        packages_json d = Some packages ∧ packages_dir d = Some present
        ∧ ∀ pkg_name, pkg_name ∈ PYTHON_PACKAGES → complete packages present pkg_name.
Proof.
  unfold verify_packages.
  destruct (st_size d !! "packages.json") as [size|];
    [|split; [done|by intros [[? ?] _]]].
  destruct (packages_json d) as [packages|];
    [|split; [done|by intros [_ (? & ? & ? & _)]]].
  destruct (packages_dir d) as [present|];
    [|split; [done|by intros [_ (? & ? & _ & ? & _)]]].
  rewrite packages_loop_ok, Forall_forall. split.
  - intros [_ H]. split; [by eexists|]. by exists packages, present.
  - intros [_ (p & pr & [= <-] & [= <-] & H)]. done.
Qed.

(** X13.  [main] of the verifier returns 0 exactly when the directory
    exists, the core files and the packages verify, and the lock file
    exists and parses; the version the lock file names plays no part. *)
Theorem verify_main_exit_status (d : option pyodide_dir) :
  main d = 0
  ↔ ∃ dir, d = Some dir
           ∧ verify_core_files dir = true
           ∧ verify_packages dir = true
           ∧ is_Some (st_size dir !! "pyodide-lock.json")
           ∧ is_Some (lock_json dir).
Proof.
  destruct d as [dir|]; cbn [main]; [|split; [done|by intros (? & ? & _)]].
  unfold print_summary, verify_lock_file. split.
  - intros Hexit. exists dir.
    destruct (verify_core_files dir), (verify_packages dir),
      (st_size dir !! "pyodide-lock.json") as [size|], (lock_json dir) as [lock|];
      cbn in Hexit; try discriminate Hexit.
    repeat split; by eexists.
  - intros (dir' & [= <-] & -> & -> & [size ->] & [lock ->]). reflexivity.
Qed.
End VerifyFacts.

(** ** download-pyodide.py *)

Module DownloadFacts.
Import download_pyodide.

Lemma select_from_returns (net : network) (mirrors : list string) (m : string) :
  select_from net mirrors = Returns m
  ↔ ∃ before after,
      mirrors = before ++ m :: after
      ∧ test_mirror net m = true
      ∧ Forall (λ u, test_mirror net u = false) before.
Proof.
  induction mirrors as [|u mirrors IH]; cbn [select_from].
  - split; [done|]. intros (before & after & Heq & _). by destruct before.
  - destruct (test_mirror net u) eqn:Hu.
    + split.
      * intros [= <-]. exists [], mirrors. by repeat split.
      * intros ([|u' before] & after & Heq & Hm & Hb).
        -- by injection Heq as ->.
        -- injection Heq as -> _. apply Forall_cons in Hb as [Hb _]. congruence.
    + rewrite IH. split.
      * intros (before & after & -> & Hm & Hb). exists (u :: before), after.
        repeat split; [done|]. by constructor.
      * intros ([|u' before] & after & Heq & Hm & Hb).
        -- injection Heq as -> _. congruence.
        -- injection Heq as -> ->. apply Forall_cons in Hb as [_ Hb].
           by exists before, after.
Qed.

Lemma select_from_raises (net : network) (mirrors : list string) :
  (∃ e, select_from net mirrors = Raises e)
  ↔ Forall (λ u, test_mirror net u = false) mirrors.
Proof.
  induction mirrors as [|u mirrors IH]; cbn [select_from].
  - split; [constructor|eauto].
  - destruct (test_mirror net u) eqn:Hu.
    + split; [by intros [e ?]|]. intros [? _]%Forall_cons. congruence.
    + rewrite IH. split; [by constructor|by intros [_ ?]%Forall_cons].
Qed.

(** X6.  [select_mirror] returns the first mirror of the list whose test
    passes, every mirror before it having failed, and raises exactly when
    every mirror fails. *)
Theorem select_mirror_first_accessible (net : network) :
  (∀ m, select_mirror net = Returns m
        ↔ ∃ before after,
            MIRROR_URLS = before ++ m :: after
            ∧ test_mirror net m = true
            ∧ Forall (λ u, test_mirror net u = false) before)
  ∧ ((∃ e, select_mirror net = Raises e)
     ↔ Forall (λ u, test_mirror net u = false) MIRROR_URLS).
Proof. split; [intros m; apply select_from_returns | apply select_from_raises]. Qed.

(** What a download leaves: every file that existed, and at most the
    destination more, which is there when the download succeeded; the URL
    and the parent directory are noted. *)
Lemma download_file_effect (net : network) (url dest : string) (o : output) :
  let run := download_file net url dest o in
  fetched run.2 = fetched o ++ [url]
  ∧ made run.2 = made o ++ [parent_of dest]
  ∧ index run.2 = index o
  ∧ (existing run.2 = existing o ∨ existing run.2 = {[dest]} ∪ existing o)
  ∧ (run.1 = Returns true ↔ urlretrieve net url = Saved)
  ∧ (run.1 = Returns true → existing run.2 = {[dest]} ∪ existing o).
Proof.
  unfold download_file.
  destruct (urlretrieve net url) as [|[|]|[|] e]; cbn; repeat split; auto; done.
Qed.

(** The filter of a list depends on the predicate at its elements only. *)
Lemma filter_ext_elem {A : Type} (P Q : A → Prop) `{!∀ x, Decision (P x)}
    `{!∀ x, Decision (Q x)} (l : list A) :
  (∀ x, x ∈ l → (P x ↔ Q x)) → filter P l = filter Q l.
Proof.
  induction l as [|x l IH]; intros Hext; [done|].
  rewrite !filter_cons.
  assert (filter P l = filter Q l) as -> by (apply IH; intros y Hy; apply Hext; by right).
  destruct (decide (P x)) as [HP|HP], (decide (Q x)) as [HQ|HQ]; try done.
  - destruct HQ. by apply (Hext x); [left|].
  - destruct HP. by apply (Hext x); [left|].
Qed.

Lemma core_loop_spec (net : network) (base_url : string) (files : list string) :
  NoDup files →
  ∀ (count : Z) (o : output) (count' : Z) (o' : output),
    core_loop net base_url files count o = (Returns count', o') →
    count' = count + Z.of_nat (length (filter (counted net base_url o) files))
    ∧ existing o ⊆ existing o'
    ∧ (∀ f, f ∈ existing o' → f ∈ existing o ∨ f ∈ files)
    ∧ (∀ f, f ∈ files → counted net base_url o f → f ∈ existing o')
    ∧ fetched o'
      = fetched o ++ ((λ f, base_url +:+ f) <$> filter (λ f, f ∉ existing o) files)
    ∧ made o' = made o ++ (parent_of <$> filter (λ f, f ∉ existing o) files)
    ∧ index o' = index o.
Proof.
  induction files as [|f files IH]; intros Hnd count o count' o'.
  - cbn. intros [= <- <-]. rewrite !app_nil_r.
    repeat split; [lia|done|by left|by intros f ?%elem_of_nil].
  - apply NoDup_cons in Hnd as [Hf Hnd]. cbn [core_loop].
    assert (∀ o1 c1,
              (existing o1 = existing o ∨ existing o1 = {[f]} ∪ existing o) →
              (c1 = count + if decide (counted net base_url o f) then 1 else 0) →
              (counted net base_url o f → f ∈ existing o1) →
              fetched o1 = fetched o ++ ((λ f, base_url +:+ f) <$> filter (λ f, f ∉ existing o) [f]) →
              made o1 = made o ++ (parent_of <$> filter (λ f, f ∉ existing o) [f]) →
              index o1 = index o →
              core_loop net base_url files c1 o1 = (Returns count', o') →
              count' = count
                       + Z.of_nat (length (filter (counted net base_url o) (f :: files)))
              ∧ existing o ⊆ existing o'
              ∧ (∀ g, g ∈ existing o' → g ∈ existing o ∨ g ∈ f :: files)
              ∧ (∀ g, g ∈ f :: files → counted net base_url o g → g ∈ existing o')
              ∧ fetched o'
                = fetched o
                  ++ ((λ f, base_url +:+ f) <$> filter (λ f, f ∉ existing o) (f :: files))
              ∧ made o' = made o ++ (parent_of <$> filter (λ f, f ∉ existing o) (f :: files))
              ∧ index o' = index o)
      as Hstep.
    { intros o1 c1 Hex Hc1 Hin Hfetch Hmade Hidx Hrest.
      destruct (IH Hnd c1 o1 count' o' Hrest)
        as (Hc & Hsub & Hback & Hfwd & Hfetch' & Hmade' & Hidx').
      assert (∀ g, g ∈ files → (g ∈ existing o1 ↔ g ∈ existing o)) as Hsame.
      { intros g Hg. destruct Hex as [-> | ->]; [done|].
        rewrite elem_of_union, elem_of_singleton. split; [|by right].
        intros [-> | ?]; [done|done]. }
      assert (filter (counted net base_url o1) files = filter (counted net base_url o) files)
        as Hfc.
      { apply filter_ext_elem. intros g Hg. unfold counted. by rewrite (Hsame g Hg). }
      assert (filter (λ f, f ∉ existing o1) files = filter (λ f, f ∉ existing o) files)
        as Hfm.
      { apply filter_ext_elem. intros g Hg. by rewrite (Hsame g Hg). }
      rewrite Hfc in Hc. rewrite Hfm in Hfetch', Hmade'.
      assert (existing o ⊆ existing o1) as Hsub1 by (destruct Hex as [-> | ->]; set_solver).
      split; [|split; [|split; [|split; [|split; [|split]]]]].
      - rewrite filter_cons. destruct (decide (counted net base_url o f)); cbn [length]; lia.
      - set_solver.
      - intros g Hg. destruct (Hback g Hg) as [Hg1|Hg1]; [|right; by right].
        destruct Hex as [Hex | Hex]; rewrite Hex in Hg1; [by left|].
        apply elem_of_union in Hg1 as [->%elem_of_singleton | ?]; [right; by left|by left].
      - intros g [-> | Hg]%elem_of_cons Hcounted.
        + apply Hsub, Hin, Hcounted.
        + apply (Hfwd g Hg). unfold counted in *. by rewrite (Hsame g Hg).
      - rewrite Hfetch', Hfetch, <- app_assoc, <- fmap_app.
        by rewrite <- filter_app.
      - rewrite Hmade', Hmade, <- app_assoc, <- fmap_app.
        by rewrite <- filter_app.
      - congruence. }
    case_bool_decide as Hin.
    + apply Hstep; [by left| |done| | |done].
      * rewrite decide_True by (by left). done.
      * rewrite filter_cons, decide_False by (intros Hn; by apply Hn).
        by rewrite app_nil_r.
      * rewrite filter_cons, decide_False by (intros Hn; by apply Hn).
        by rewrite app_nil_r.
    + pose proof (download_file_effect net (base_url +:+ f) f o)
        as (Hfetch & Hmade & Hidx & Hex & Hok & Hyes).
      assert (filter (λ f, f ∉ existing o) [f] = [f]) as Hone
        by (rewrite filter_cons, decide_True by done; done).
      destruct (download_file net (base_url +:+ f) f o) as [[[|]|e] o1] eqn:Hdl;
        cbn [fst snd] in *; [| |done].
      * apply Hstep; [right; by apply Hyes| | |by rewrite Hone|by rewrite Hone|done].
        -- rewrite decide_True; [done|]. right. apply proj1 in Hok. by rewrite Hok.
        -- intros _. rewrite Hyes by done. set_solver.
      * apply Hstep; [done| | |by rewrite Hone|by rewrite Hone|done].
        -- rewrite decide_False; [lia|]. intros [? | Hs]; [done|].
           destruct (urlretrieve net (base_url +:+ f)); try done.
           by apply proj2 in Hok; specialize (Hok eq_refl).
        -- intros [? | Hs]; [done|].
           destruct (urlretrieve net (base_url +:+ f)); try done.
           by apply proj2 in Hok; specialize (Hok eq_refl).
Qed.

Lemma CORE_FILES_NoDup : NoDup CORE_FILES.
Proof. apply (bool_decide_unpack _). reflexivity. Qed.

(** A count of the files of a list that satisfy a test is positive exactly
    when one of them does. *)
Lemma positive_count_iff (P : string → Prop) `{!∀ f, Decision (P f)} (files : list string) :
  0 < Z.of_nat (length (filter P files)) ↔ ∃ f, f ∈ files ∧ P f.
Proof.
  split.
  - intros Hpos.
    destruct (filter P files) as [|f fs] eqn:Hfilter; [cbn in Hpos; lia|].
    exists f. assert (f ∈ filter P files) as Hmem by (rewrite Hfilter; by left).
    apply list_elem_of_filter in Hmem as [? ?]. done.
  - intros (f & Hf & Hin).
    assert (f ∈ filter P files) as Hmem by by apply list_elem_of_filter.
    destruct (filter P files); [by apply elem_of_nil in Hmem|].
    cbn [length]. lia.
Qed.

Lemma saved_iff (r : retrieved) : saved r = true ↔ r = Saved.
Proof. by destruct r. Qed.

(** X7.  When [download_pyodide_core] returns, its result is [True] exactly
    when some core file was there before or was downloaded completely, and
    then a core file exists afterwards.  No file is removed, only core files
    are added, and exactly the core files that were missing are fetched,
    once each and in order, from [base_url] followed by the name.  (A
    download that fails may leave a file, so core files can exist although
    the result is [False].) *)
Theorem download_core_result (net : network) (base_url : string) (o o' : output)
    (ok : bool) :
  download_pyodide_core net base_url o = (Returns ok, o') →
  (ok = true
   ↔ ∃ f, f ∈ CORE_FILES
          ∧ (f ∈ existing o ∨ urlretrieve net (base_url +:+ f) = Saved))
  ∧ (ok = true → ∃ f, f ∈ CORE_FILES ∧ f ∈ existing o')
  ∧ existing o ⊆ existing o'
  ∧ (∀ f, f ∈ existing o' → f ∈ existing o ∨ f ∈ CORE_FILES)
  ∧ fetched o'
    = fetched o ++ ((λ f, base_url +:+ f) <$> filter (λ f, f ∉ existing o) CORE_FILES).
Proof.
  unfold download_pyodide_core.
  destruct (core_loop net base_url CORE_FILES 0 o) as [[count|e] o1] eqn:Hloop; [|done].
  intros [= <- <-].
  destruct (core_loop_spec net base_url CORE_FILES CORE_FILES_NoDup 0 o count o1 Hloop)
    as (Hcount & Hsub & Hback & Hfwd & Hfetch & _).
  assert ((0 <? count) = true ↔ ∃ f, f ∈ CORE_FILES ∧ counted net base_url o f) as Hok.
  { rewrite Z.ltb_lt, Hcount. apply positive_count_iff. }
  split; [|split; [|split; [done|split; [done|done]]]].
  - rewrite Hok. unfold counted. by setoid_rewrite saved_iff.
  - intros (f & Hf & Hc)%Hok. exists f. split; [done|]. by apply Hfwd.
Qed.

Lemma download_core_result_witness :
  let net := DownloadSample.offline in
  let o := DownloadSample.start in
  let o' := DownloadSample.finish in
  (true = true
   ↔ ∃ f, f ∈ CORE_FILES
          ∧ (f ∈ existing o ∨ urlretrieve net ("https://mirror/" +:+ f) = Saved))
  ∧ (true = true → ∃ f, f ∈ CORE_FILES ∧ f ∈ existing o')
  ∧ existing o ⊆ existing o'
  ∧ (∀ f, f ∈ existing o' → f ∈ existing o ∨ f ∈ CORE_FILES)
  ∧ fetched o'
    = fetched o
      ++ ((λ f, "https://mirror/" +:+ f) <$> filter (λ f, f ∉ existing o) CORE_FILES).
Proof.
  cbv zeta.
  apply (download_core_result DownloadSample.offline "https://mirror/"
           DownloadSample.start DownloadSample.finish true).
  reflexivity.
Defined.

(** Truncated downloads leave all seven core files behind although the
    result is [False]. *)
Example download_core_truncated :
  let net := Network (λ _, Some 2000) (λ _, UrlError true) in
  let run := download_pyodide_core net "https://mirror/" (Output ∅ None [] []) in
  run.1 = Returns false
  ∧ existing run.2
    = {["micropip.py"]} ∪ ({["packages.json"]} ∪ ({["pyodide-lock.json"]}
      ∪ ({["pyodide_asm.wasm"]} ∪ ({["pyodide.asm.data"]} ∪ ({["pyodide.asm.js"]}
      ∪ ({["pyodide.js"]} ∪ ∅)))))).
Proof. split; reflexivity. Qed.

Lemma files_loop_spec (net : network) (base_url : string) (files : list string) :
  ∀ (downloaded : Z) (o : output),
    let run := files_loop net base_url files downloaded o in
    existing o ⊆ existing run.2 ∧ index run.2 = index o
    ∧ (only_url_errors net → ∃ n, run.1 = Returns n)
    ∧ ∃ dirs, made run.2 = made o ++ dirs.
Proof.
  induction files as [|f files IH]; intros downloaded o; cbn [files_loop].
  - cbn. repeat split; eauto. exists []. by rewrite app_nil_r.
  - case_bool_decide; [apply IH|].
    pose proof (download_file_effect net (base_url +:+ "packages/" +:+ f)
                  ("packages/" +:+ f) o) as (_ & Hmade & Hidx & Hex & _).
    assert (existing o ⊆ existing
              (download_file net (base_url +:+ "packages/" +:+ f) ("packages/" +:+ f) o).2)
      as Hsub by (destruct Hex as [-> | ->]; set_solver).
    destruct (download_file net (base_url +:+ "packages/" +:+ f) ("packages/" +:+ f) o)
      as [[[|]|e] o1] eqn:Hdl; cbn [fst snd] in *.
    + destruct (IH (downloaded + 1) o1) as (Hs & Hi & Hn & dirs & Hd).
      split; [set_solver|]. split; [congruence|]. split; [done|].
      eexists. by rewrite Hd, Hmade, <- app_assoc.
    + destruct (IH downloaded o1) as (Hs & Hi & Hn & dirs & Hd).
      split; [set_solver|]. split; [congruence|]. split; [done|].
      eexists. by rewrite Hd, Hmade, <- app_assoc.
    + split; [done|]. split; [done|]. split; [|by eexists].
      intros Honly. unfold download_file in Hdl.
      destruct (urlretrieve net (base_url +:+ "packages/" +:+ f)) as [|w|w e'] eqn:Hr;
        [done|done|]. by destruct (Honly _ _ _ Hr).
Qed.

Lemma packages_loop_spec (net : network) (base_url : string)
    (packages : gmap string pkg_info) (names : list string) :
  ∀ (downloaded total : Z) (o : output),
    let run := packages_loop net base_url packages names downloaded total o in
    existing o ⊆ existing run.2 ∧ index run.2 = index o
    ∧ (only_url_errors net → ∃ n, run.1 = Returns n)
    ∧ ∃ dirs, made run.2 = made o ++ dirs.
Proof.
  induction names as [|p names IH]; intros downloaded total o; cbn [packages_loop].
  - cbn. repeat split; eauto. exists []. by rewrite app_nil_r.
  - destruct (packages !! p) as [info|]; [|apply IH].
    pose proof (files_loop_spec net base_url (default [] (pkg_files info)) downloaded o)
      as (Hs & Hi & Hn & dirs & Hd).
    destruct (files_loop net base_url (default [] (pkg_files info)) downloaded o)
      as [[n|e] o1]; cbn [fst snd] in *.
    + destruct (IH n (total + default 0 (package_size info)) o1)
        as (Hs' & Hi' & Hn' & dirs' & Hd').
      split; [set_solver|]. split; [congruence|]. split; [done|].
      eexists. by rewrite Hd', Hd, <- app_assoc.
    + split; [done|]. split; [done|]. split; [|by eexists].
      intros Honly. by destruct (Hn Honly).
Qed.


(** X9.  [main] of the downloader exits 1 when no mirror is accessible,
    having made the output directory and nothing else: no file is written
    and nothing is fetched.  When it exits 0 the output directory was made,
    some mirror passed its test, [version.json], [packages.json] and at
    least one core file exist, and nothing that existed was removed. *)
Theorem download_main_exit_status (net : network) (o : output) :
  (Forall (λ u, test_mirror net u = false) MIRROR_URLS →
   main net o = (Returns 1, mkdir OUTPUT_DIR o))
  ∧ (∀ o', main net o = (Returns 0, o') →
           "version.json" ∈ existing o'
           ∧ "packages.json" ∈ existing o'
           ∧ (∃ f, f ∈ CORE_FILES ∧ f ∈ existing o')
           ∧ existing o ⊆ existing o'
           ∧ (∃ m, m ∈ MIRROR_URLS ∧ test_mirror net m = true)
           ∧ ∃ dirs, made o' = made o ++ OUTPUT_DIR :: dirs).
Proof.
  unfold main. split.
  - intros Hall. apply select_from_raises in Hall as [e He].
    unfold select_mirror. by rewrite He.
  - intros o'. destruct (select_mirror net) as [m|e] eqn:Hsel; [|done].
    apply select_from_returns in Hsel as (before & after & Hm & Htest & _).
    destruct (download_pyodide_core net m (mkdir OUTPUT_DIR o)) as [[[|]|e] o1] eqn:Hcore;
      try done.
    unfold download_pyodide_core in Hcore.
    destruct (core_loop net m CORE_FILES 0 (mkdir OUTPUT_DIR o)) as [[count|e] o1'] eqn:Hloop;
      [|done].
    injection Hcore as Hpos <-.
    destruct (core_loop_spec net m CORE_FILES CORE_FILES_NoDup 0 _ count o1' Hloop)
      as (Hcount & Hsub & _ & Hfwd & _ & Hmade & _).
    rewrite Z.ltb_lt, Hcount in Hpos.
    apply positive_count_iff in Hpos as (f & Hf & Hfin).
    apply (Hfwd f Hf) in Hfin.
    unfold download_pyodide_packages. case_bool_decide as Hpj; [|done].
    destruct (index o1') as [packages|]; [|done].
    pose proof (packages_loop_spec net m packages PYTHON_PACKAGES 0 0
                  (mkdir packages_dir o1')) as (Hsub2 & _ & _ & dirs & Hdirs).
    destruct (packages_loop net m packages PYTHON_PACKAGES 0 0 (mkdir packages_dir o1'))
      as [[n|e] o2] eqn:Hpk; [|done].
    intros [= <-]. cbn [create_version_file mkdir existing made fst snd] in *.
    clear Hloop Hpk Hcount Hfwd.
    split; [set_solver|]. split; [set_solver|]. split; [exists f; set_solver|].
    split; [set_solver|]. split; [exists m; split; [rewrite Hm; set_solver|done]|].
    eexists. rewrite Hdirs, Hmade, <- !app_assoc. reflexivity.
Qed.
End DownloadFacts.
